(** * continuous_stock.py: polling loop, bounded history and CSV snapshot

    A shallow embedding of [continuous_stock.py].  The program resolves a
    fixed list of company names to tickers, fetches two quote fields per
    ticker, appends one record per company to a [deque(maxlen=...)] and
    rewrites a CSV file from the deque after every round.

    Python's effects are threaded through an explicit [World]: the
    network, the clock and the disk are oracles indexed by the number of
    calls made so far, and every call leaves a trace (requests issued,
    log records, sleeps).  Exceptions are values of [exn]; a raising
    computation keeps the world it had reached. *)

From stdpp Require Import base strings list gmap pretty.
From Stdlib Require Import ZArith Lia Ascii.

Open Scope string_scope.
Open Scope list_scope.
Set Warnings "-register-all".

(** ** Python values *)

(** Parsed JSON, as [json.loads] would give it: [dict]s keep their keys in
    document order, numbers are [int] or [float] (a finite binary64 value
    [m * 2^e]). *)
Inductive json : Type :=
| JNull
| JBool (b : bool)
| JInt (n : Z)
| JFloat (m e : Z)
| JStr (s : string)
| JArr (items : list json)
| JObj (fields : list (string * json)).

(** A subscript: [x["name"]] or [x[0]]. *)
Inductive key : Type :=
| KStr (s : string)
| KInt (i : Z).

(** Exceptions.  All of these are instances of [Exception], the class the
    handler of [update_csv_stock] names; [KeyboardInterrupt] and the like,
    which reach a program from outside, are not part of the model. *)
Inductive exn : Type :=
| KeyError (k : key)
| IndexError
| TypeError
| OSError (msg : string)
| FetchError (msg : string).

(** [KeyError] and [IndexError] are the subclasses of [LookupError]. *)
Definition is_LookupError (e : exn) : bool :=
  match e with
  | KeyError _ | IndexError => true
  | _ => false
  end.

Inductive outcome (A : Type) : Type :=
| Return (a : A)
| Raise (e : exn).
Arguments Return {A} a.
Arguments Raise {A} e.

(** A dict with string keys, in insertion order. *)
Definition dict : Type := list (string * json).

Fixpoint dict_get (d : dict) (k : string) : option json :=
  match d with
  | [] => None
  | (k', v) :: rest => if String.eqb k' k then Some v else dict_get rest k
  end.

(** [x[k]] on a parsed JSON value. *)
Definition getitem (x : json) (k : key) : outcome json :=
  match x, k with
  | JObj d, KStr s =>
      match dict_get d s with
      | Some v => Return v
      | None => Raise (KeyError k)
      end
  | JObj _, KInt _ => Raise (KeyError k)
  | JArr l, KInt i =>
      match nth_error l (Z.to_nat (if (i <? 0)%Z then i + Z.of_nat (length l) else i)),
            (if (i <? 0)%Z then 0 <=? i + Z.of_nat (length l) else true)%Z with
      | Some v, true => Return v
      | _, _ => Raise IndexError
      end
  | JArr _, KStr _ => Raise TypeError
  | JStr s, KInt i =>
      match String.get (Z.to_nat (if (i <? 0)%Z then i + Z.of_nat (String.length s) else i)) s,
            (if (i <? 0)%Z then 0 <=? i + Z.of_nat (String.length s) else true)%Z with
      | Some c, true => Return (JStr (String c EmptyString))
      | _, _ => Raise IndexError
      end
  | _, _ => Raise TypeError
  end.

(** ** collections.deque *)

Record deque (A : Type) : Type := Deque { maxlen : nat; items : list A }.
Arguments Deque {A} maxlen items.
Arguments maxlen {A} d.
Arguments items {A} d.

(** [deque(maxlen=n)] *)
Definition deque_new {A : Type} (n : nat) : deque A := Deque n [].

(** [d.append(x)]: the item goes in on the right; when that makes the
    deque longer than [maxlen] one item is dropped on the left. *)
Definition deque_append {A : Type} (d : deque A) (x : A) : deque A :=
  let grown := items d ++ [x] in
  Deque (maxlen d)
        (if (maxlen d <? length grown)%nat then tail grown else grown).

(** ** pandas.DataFrame and to_csv *)

Record DataFrame : Type := Frame {
  columns : list string;
  cells : list (list (option json))   (* one list per row; [None] is NaN *)
}.

(** [pd.DataFrame(columns=cols)] *)
Definition DataFrame_columns (cols : list string) : DataFrame :=
  Frame cols [].

(** Column labels of a frame built from dicts: every key, in order of
    first appearance. *)
Fixpoint add_keys (seen : list string) (ks : list string) : list string :=
  match ks with
  | [] => seen
  | k :: rest =>
      if existsb (String.eqb k) seen then add_keys seen rest
      else add_keys (seen ++ [k]) rest
  end.

Definition union_keys (data : list dict) : list string :=
  fold_left (fun seen r => add_keys seen (map fst r)) data [].

(** [pd.DataFrame(data)] for an iterable of dicts. *)
Definition DataFrame_records (data : list dict) : DataFrame :=
  let cols := union_keys data in
  Frame cols (map (fun r => map (dict_get r) cols) data).

Definition dquote : ascii := Ascii.ascii_of_nat 34.
Definition comma : ascii := Ascii.ascii_of_nat 44.
Definition LF : ascii := Ascii.ascii_of_nat 10.
Definition CR : ascii := Ascii.ascii_of_nat 13.

Fixpoint string_exists (p : ascii -> bool) (s : string) : bool :=
  match s with
  | EmptyString => false
  | String c rest => p c || string_exists p rest
  end.

Fixpoint double_quotes (s : string) : string :=
  match s with
  | EmptyString => EmptyString
  | String c rest =>
      if Ascii.eqb c dquote then String dquote (String dquote (double_quotes rest))
      else String c (double_quotes rest)
  end.

(** csv.QUOTE_MINIMAL *)
Definition csv_field (s : string) : string :=
  if string_exists (fun c => Ascii.eqb c comma || Ascii.eqb c dquote
                             || Ascii.eqb c LF || Ascii.eqb c CR) s
  then String dquote (double_quotes s +:+ String dquote EmptyString)
  else s.

Fixpoint join (sep : string) (l : list string) : string :=
  match l with
  | [] => ""
  | [x] => x
  | x :: rest => x +:+ sep +:+ join sep rest
  end.

(** One row of [csv.writer]: a row that is a single empty field is
    written as a pair of quotes. *)
Definition csv_row (fields : list string) : string :=
  match fields with
  | [EmptyString] => String dquote (String dquote EmptyString)
  | _ => join (String comma EmptyString) (map csv_field fields)
  end.

(** The line terminator [to_csv] uses, [os.linesep] on a POSIX system. *)
Definition newline : string := String LF EmptyString.

Fixpoint unlines (rows : list string) : string :=
  match rows with
  | [] => ""
  | r :: rest => r +:+ newline +:+ unlines rest
  end.

(** ** The world the program runs in *)

(** Modelled from the spec: [fetch.py] is not among the sources; what
    [fetch_from_url] returns is an object exposing the parsed payload, of
    which the program reads the [data] attribute. *)
Record Result : Type := MkResult { data : json }.

Inductive log_record : Type :=
| INFO (msg : string)
| INFO_result (msg : string) (r : Result)     (* f"... {result}" *)
| INFO_path (msg : string) (path : string)    (* f"... {fp}" *)
| ERROR (msg : string) (e : exn).             (* f"... {e}" *)

(** A write that fails raises and leaves something (or nothing) behind
    at the path. *)
Record fault : Type := Fault { fault_exn : exn; fault_residue : option string }.

Record World : Type := MkWorld {
  (* the environment: answers of the network, the clock and the disk *)
  fetch_reply : nat -> string -> outcome Result;
  clock : nat -> string;
  disk_fault : nat -> option fault;
  (* the state and the trace of the run *)
  requests : list (string * string);
  clock_reads : nat;
  disk_writes : nat;
  files : gmap string string;
  records_deque : deque dict;
  log : list log_record;
  sleeps : list nat
}.

Definition Py (A : Type) : Type := World -> outcome A * World.

Definition ret {A : Type} (a : A) : Py A := fun w => (Return a, w).

Definition raise {A : Type} (e : exn) : Py A := fun w => (Raise e, w).

Definition bind {A B : Type} (c : Py A) (k : A -> Py B) : Py B :=
  fun w =>
    match c w with
    | (Return a, w') => k a w'
    | (Raise e, w') => (Raise e, w')
    end.

Declare Scope py_scope.
Delimit Scope py_scope with py.
Bind Scope py_scope with Py.
Open Scope py_scope.

Notation "x <- c ;; k" := (bind c (fun x => k))
  (at level 100, c at next level, k at level 200, right associativity) : py_scope.
Notation "c ;; k" := (bind c (fun _ => k))
  (at level 100, k at level 200, right associativity) : py_scope.

(** A pure computation that may raise. *)
Definition lift {A : Type} (o : outcome A) : Py A := fun w => (o, w).

(** [try: body except Exception as e: handler(e)] *)
Definition try_except {A : Type} (body : Py A) (handler : exn -> Py A) : Py A :=
  fun w =>
    match body w with
    | (Return a, w') => (Return a, w')
    | (Raise e, w') => handler e w'
    end.

(** [for x in xs: body(x)] *)
Fixpoint for_each {A : Type} (xs : list A) (body : A -> Py unit) : Py unit :=
  match xs with
  | [] => ret tt
  | x :: rest => body x ;; for_each rest body
  end.

(** [for _ in range(n): body] *)
Definition for_range (n : nat) (body : Py unit) : Py unit :=
  for_each (seq 0 n) (fun _ => body).

(** *** Primitive effects *)

(** Modelled from the spec: [util_logger.py] is not among the sources; the
    logger accepts a message and a level, and that is all: a call adds one
    record to the log and does not raise.  [logger.info(msg)] *)
Definition logger_info (msg : string) : Py unit := fun w =>
  (Return tt,
   MkWorld (fetch_reply w) (clock w) (disk_fault w) (requests w) (clock_reads w)
           (disk_writes w) (files w) (records_deque w)
           (log w ++ [INFO msg]) (sleeps w)).

(** [logger.info(f"{msg}{result}")] *)
Definition logger_info_result (msg : string) (r : Result) : Py unit := fun w =>
  (Return tt,
   MkWorld (fetch_reply w) (clock w) (disk_fault w) (requests w) (clock_reads w)
           (disk_writes w) (files w) (records_deque w)
           (log w ++ [INFO_result msg r]) (sleeps w)).

(** [logger.info(f"{msg}{fp}")] *)
Definition logger_info_path (msg path : string) : Py unit := fun w =>
  (Return tt,
   MkWorld (fetch_reply w) (clock w) (disk_fault w) (requests w) (clock_reads w)
           (disk_writes w) (files w) (records_deque w)
           (log w ++ [INFO_path msg path]) (sleeps w)).

(** [logger.error(f"{msg}{e}")] *)
Definition logger_error (msg : string) (e : exn) : Py unit := fun w =>
  (Return tt,
   MkWorld (fetch_reply w) (clock w) (disk_fault w) (requests w) (clock_reads w)
           (disk_writes w) (files w) (records_deque w)
           (log w ++ [ERROR msg e]) (sleeps w)).

(** Modelled from the spec: [fetch.py] is not among the sources.
    [await fetch_from_url(url, fetch_type)] issues one request and then
    returns the parsed response or raises; which of the two, and with
    what, is the world's to say ([fetch_reply]). *)
Definition fetch_from_url (url fetch_type : string) : Py Result := fun w =>
  (fetch_reply w (length (requests w)) url,
   MkWorld (fetch_reply w) (clock w) (disk_fault w)
           (requests w ++ [(url, fetch_type)]) (clock_reads w)
           (disk_writes w) (files w) (records_deque w) (log w) (sleeps w)).

(** [datetime.now().strftime("%Y-%m-%d %H:%M:%S")] *)
Definition datetime_now_strftime : Py string := fun w =>
  (Return (clock w (clock_reads w)),
   MkWorld (fetch_reply w) (clock w) (disk_fault w) (requests w)
           (S (clock_reads w)) (disk_writes w) (files w) (records_deque w)
           (log w) (sleeps w)).

(** [await asyncio.sleep(seconds)] *)
Definition asyncio_sleep (seconds : nat) : Py unit := fun w =>
  (Return tt,
   MkWorld (fetch_reply w) (clock w) (disk_fault w) (requests w) (clock_reads w)
           (disk_writes w) (files w) (records_deque w) (log w)
           (sleeps w ++ [seconds])).

(** [os.path.exists(path)] *)
Definition os_path_exists (path : string) : Py bool := fun w =>
  (Return (bool_decide (is_Some (files w !! path))), w).

(** Opening [path] with mode "w" and writing [text]: the file then holds
    [text] and nothing else, unless the disk fails. *)
Definition write_file (path text : string) : Py unit := fun w =>
  match disk_fault w (disk_writes w) with
  | None =>
      (Return tt,
       MkWorld (fetch_reply w) (clock w) (disk_fault w) (requests w)
               (clock_reads w) (S (disk_writes w)) (<[path := text]> (files w))
               (records_deque w) (log w) (sleeps w))
  | Some f =>
      (Raise (fault_exn f),
       MkWorld (fetch_reply w) (clock w) (disk_fault w) (requests w)
               (clock_reads w) (S (disk_writes w))
               (match fault_residue f with
                | Some junk => <[path := junk]> (files w)
                | None => delete path (files w)
                end)
               (records_deque w) (log w) (sleeps w))
  end.

(** [records_deque = deque(maxlen=n)] *)
Definition new_records_deque (n : nat) : Py unit := fun w =>
  (Return tt,
   MkWorld (fetch_reply w) (clock w) (disk_fault w) (requests w) (clock_reads w)
           (disk_writes w) (files w) (deque_new n) (log w) (sleeps w)).

(** [records_deque.append(r)] *)
Definition records_deque_append (r : dict) : Py unit := fun w =>
  (Return tt,
   MkWorld (fetch_reply w) (clock w) (disk_fault w) (requests w) (clock_reads w)
           (disk_writes w) (files w) (deque_append (records_deque w) r)
           (log w) (sleeps w)).

(** Reading the variable [records_deque]. *)
Definition get_records_deque : Py (deque dict) := fun w =>
  (Return (records_deque w), w).

(** ** The program *)

(** A dict display [{k1: v1, k2: v2, ...}]: keys are stored left to right,
    a repeated key keeps its last value. *)
Definition dict_display (kvs : list (string * string)) : gmap string string :=
  fold_left (fun m kv => <[kv.1 := kv.2]> m) kvs ∅.

Definition stocks_dictionary_items : list (string * string) :=
    [ ("Cadence Design Systems", "CDNS");
      ("Synopys", "SNPS");
      ("Tractor Supply Company", "TSCO");
      ("Lululemon Ahtletica Inc.", "LULU");
      ("Arch Capital Group Ltd.", "ACGL");
      ("Costco Wholesale Corporation", "COST");
      ("Brown & Brown Inc.", "BRO");
      ("Thermo Fisher Scientific Inc.", "TMO");
      ("CDW Corporation", "CDW");
      ("Intuit Inc.", "INTU") ].

Definition stocks_dictionary : gmap string string :=
  dict_display stocks_dictionary_items.

Definition lookup_ticker (company : string) : outcome string :=
  match stocks_dictionary !! company with
  | Some ticker => Return ticker
  | None => Raise (KeyError (KStr company))
  end.

(** [x[k1][k2]...] *)
Fixpoint subscript (x : json) (path : list key) : outcome json :=
  match path with
  | [] => Return x
  | k :: rest =>
      match getitem x k with
      | Return y => subscript y rest
      | Raise e => Raise e
      end
  end.

Definition get_stock_price (ticker : string) : Py json :=
  logger_info "Calling get_stock_price for {ticker}" ;;
  let stock_api_url :=
    "https://query1.finance.yahoo.com/v7/finance/options/" +:+ ticker in
  logger_info ("Calling fetch_from_url: " +:+ stock_api_url) ;;
  result <- fetch_from_url stock_api_url "json" ;;
  logger_info_result "Data from yahoofinance: " result ;;
  price <- lift (subscript (data result)
                   [KStr "optionChain"; KStr "result"; KInt 0; KStr "quote";
                    KStr "regularMarketPrice"]) ;;
  ret price.

Definition get_daily_high (ticker : string) : Py json :=
  logger_info "Calling get_daily_high for {ticker}" ;;
  let stock_api_url :=
    "https://query1.finance.yahoo.com/v7/finance/options/" +:+ ticker in
  logger_info ("Calling fetch_from_url: " +:+ stock_api_url) ;;
  result <- fetch_from_url stock_api_url "json" ;;
  logger_info_result "Data from yahoofinance: " result ;;
  daily_high <- lift (subscript (data result)
                        [KStr "optionChain"; KStr "result"; KInt 0; KStr "quote";
                         KStr "regularMarketDayHigh"]) ;;
  ret daily_high.

Section Program.

(** How pandas prints a cell that is not a [str]: a number, a boolean, a
    nested value. *)
Variable str_value : json -> string.

Definition cell_text (c : option json) : string :=
  match c with
  | None => ""
  | Some (JStr s) => s
  | Some v => str_value v
  end.

(** The text [df.to_csv(index=False)] produces: the column labels, then
    one line per row. *)
Definition csv_lines (df : DataFrame) : list string :=
  csv_row (columns df) :: map (fun r => csv_row (map cell_text r)) (cells df).

(** [df.to_csv(file_path, index=False, mode="w")] *)
Definition to_csv (df : DataFrame) (file_path : string) : Py unit :=
  write_file file_path (unlines (csv_lines df)).

Definition init_csv_file (file_path : string) : Py unit :=
  let df_empty :=
    DataFrame_columns ["Company"; "Ticker"; "Time"; "Stock_Price"] in
  to_csv df_empty file_path.

(** [Path(__file__).parent.joinpath("data").joinpath("mtcars_stock.csv")],
    relative to the directory of the program. *)
Definition fp : string := "data/mtcars_stock.csv".

Definition companies : list string :=
  [ "Cadence Design Systems";
    "Synopys";
    "Tractor Supply Company";
    "Lululemon Ahtletica Inc.";
    "Arch Capital Group Ltd.";
    "Costco Wholesale Corporation";
    "Brown & Brown Inc.";
    "Thermo Fisher Scientific Inc.";
    "CDW Corporation";
    "Intuit Inc." ].

Definition update_interval : nat := 60.
Definition total_runtime : nat := 15 * 60.
Definition num_updates : nat := 100.

(** The body of [for company in companies]. *)
Definition each_company (company : string) : Py unit :=
  ticker <- lift (lookup_ticker company) ;;
  new_price <- get_stock_price ticker ;;
  daily_high <- get_daily_high ticker ;;
  time_now <- datetime_now_strftime ;;
  let new_record : dict :=
    [ ("Company", JStr company);
      ("Ticker", JStr ticker);
      ("Time", JStr time_now);
      ("Price", new_price) ] in
  records_deque_append new_record.

(** Lines 140 to 144: the deque is made into a frame and saved. *)
Definition save_snapshot : Py unit :=
  records <- get_records_deque ;;
  let df := DataFrame_records (items records) in
  to_csv df fp.

(** The body of [for _ in range(num_updates)]. *)
Definition each_update (companies : list string) : Py unit :=
  for_each companies each_company ;;
  save_snapshot ;;
  logger_info_path "Saving prices to " fp ;;
  asyncio_sleep update_interval.

(** Lines 96 to 124: the settings, the deque and the file check. *)
Definition startup (num_updates : nat) : Py unit :=
  logger_info ("update_interval: " +:+ pretty update_interval) ;;
  logger_info ("total_runtime: " +:+ pretty total_runtime) ;;
  logger_info ("num_updates: " +:+ pretty num_updates) ;;
  new_records_deque num_updates ;;
  there <- os_path_exists fp ;;
  (if negb there then init_csv_file fp else ret tt) ;;
  logger_info_path "Initialized csv file at " fp.

(** The [try] block, for any tracked list and any [num_updates]. *)
Definition try_block (companies : list string) (num_updates : nat) : Py unit :=
  startup num_updates ;;
  for_range num_updates (each_update companies).

Definition update_csv_stock_for (companies : list string) (num_updates : nat)
  : Py unit :=
  logger_info "Calling update_csv_stock" ;;
  try_except (try_block companies num_updates)
             (fun e => logger_error "ERROR in update_csv_stock: " e).

Definition update_csv_stock : Py unit :=
  update_csv_stock_for companies num_updates.

End Program.

(** * Vocabulary of the statements *)

(** The last [n] items of a list. *)
Definition keep_last {A : Type} (n : nat) (l : list A) : list A :=
  drop (length l - n) l.

(** A deque never holds more than [maxlen] items. *)
Definition within_maxlen {A : Type} (d : deque A) : Prop :=
  length (items d) <= maxlen d.

(** The address both fetchers build for a ticker. *)
Definition options_url (ticker : string) : string :=
  "https://query1.finance.yahoo.com/v7/finance/options/" +:+ ticker.

(** The subscripts that lead to a field of the quote. *)
Definition quote_path (field : string) : list key :=
  [KStr "optionChain"; KStr "result"; KInt 0; KStr "quote"; KStr field].

(** What the [n]-th request gives for [field], when it asks for [ticker]. *)
Definition quote_at (w : World) (n : nat) (ticker field : string) : outcome json :=
  match fetch_reply w n (options_url ticker) with
  | Return r => subscript (data r) (quote_path field)
  | Raise e => Raise e
  end.

(** The dict built at lines 132 to 137. *)
Definition new_record (company ticker time_now : string) (new_price : json)
  : dict :=
  [ ("Company", JStr company);
    ("Ticker", JStr ticker);
    ("Time", JStr time_now);
    ("Price", new_price) ].

Definition is_info (r : log_record) : bool :=
  match r with
  | ERROR _ _ => false
  | _ => true
  end.

(** The network, the clock and the disk answer the same in both worlds. *)
Definition same_oracles (w w' : World) : Prop :=
  fetch_reply w' = fetch_reply w /\ clock w' = clock w /\
  disk_fault w' = disk_fault w.

(** [w'] is [w] after some steps that only logged at level INFO and only
    issued requests: the disk and the sleeps are as they were. *)
Definition only_fetched (w w' : World) : Prop :=
  same_oracles w w' /\
  files w' = files w /\ disk_writes w' = disk_writes w /\
  sleeps w' = sleeps w /\
  (exists more, requests w' = requests w ++ more) /\
  (exists infos, log w' = log w ++ infos /\ forallb is_info infos = true).

(** The two requests a company costs in a round. *)
Definition requests_of (company : string) : list (string * string) :=
  match lookup_ticker company with
  | Return ticker => [(options_url ticker, "json"); (options_url ticker, "json")]
  | Raise _ => []
  end.

(** The text a snapshot of the deque [d] consists of. *)
Definition snapshot_text (str_value : json -> string) (d : deque dict) : string :=
  unlines (csv_lines str_value (DataFrame_records (items d))).

(** The two header rows of the program: the one [init_csv_file] writes
    and the labels of the dicts a round appends. *)
Definition init_header : string := "Company,Ticker,Time,Stock_Price".
Definition record_header : string := "Company,Ticker,Time,Price".

(** [w'] is [w] after some steps that logged nothing above INFO. *)
Definition logged_infos (w w' : World) : Prop :=
  exists infos, log w' = log w ++ infos /\ forallb is_info infos = true.

(** The first line of a text (all of it when it has no line feed). *)
Fixpoint first_line (s : string) : string :=
  match s with
  | EmptyString => EmptyString
  | String c rest => if Ascii.eqb c LF then EmptyString else String c (first_line rest)
  end.

(** *** Sample worlds *)

(** A well-formed answer of the quote endpoint. *)
Definition sample_quote (price high : Z) : json :=
  JObj [("optionChain",
         JObj [("result",
                JArr [JObj [("quote",
                             JObj [("regularMarketPrice", JInt price);
                                   ("regularMarketDayHigh", JInt high)])]]);
               ("error", JNull)])].

(** A printer for cells: integers in decimal. *)
Definition sample_str (v : json) : string :=
  match v with
  | JInt n => pretty n
  | _ => "nan"
  end.

(** The [n]-th request is answered with price [100 + n]; the clock reads
    ["T0"], ["T1"], ...; the disk never fails; no file exists. *)
Definition sample_world : World :=
  MkWorld (fun n _ => Return (MkResult (sample_quote (100 + Z.of_nat n) 500)))
          (fun n => "T" +:+ pretty n)
          (fun _ => None)
          [] 0 0 ∅ (deque_new 0) [] [].

(** The same, with a snapshot left by an earlier run. *)
Definition sample_world_with_file : World :=
  MkWorld (fetch_reply sample_world) (clock sample_world) (disk_fault sample_world)
          [] 0 0 {[ fp := "left over" ]} (deque_new 0) [] [].

(** The same as [sample_world], but request number [k] fails. *)
Definition sample_world_outage (k : nat) : World :=
  MkWorld (fun n url => if (n =? k)%nat then Raise (FetchError "unreachable")
                        else fetch_reply sample_world n url)
          (clock sample_world) (disk_fault sample_world)
          [] 0 0 ∅ (deque_new 0) [] [].

(** The same as [sample_world], but write number [k] fails and leaves an
    empty file. *)
Definition sample_world_disk_full (k : nat) : World :=
  MkWorld (fetch_reply sample_world) (clock sample_world)
          (fun n => if (n =? k)%nat
                    then Some (Fault (OSError "No space left on device") (Some ""))
                    else None)
          [] 0 0 ∅ (deque_new 0) [] [].

(** A world at the start of a round: the file has its header, the deque
    is new. *)
Definition sample_world_in_round : World :=
  MkWorld (fetch_reply sample_world) (clock sample_world) (disk_fault sample_world)
          [] 0 1 {[ fp := "Company,Ticker,Time,Stock_Price" +:+ newline ]}
          (deque_new 100) [] [].

(** Two worlds that agree on the deque and on nothing else. *)
Definition sample_deque : deque dict :=
  Deque 100 [ new_record "Synopys" "SNPS" "T0" (JInt 101);
              new_record "Intuit Inc." "INTU" "T1" (JInt 103) ].

Definition sample_world_early : World :=
  MkWorld (fetch_reply sample_world) (clock sample_world) (fun _ => None)
          [] 2 0 ∅ sample_deque [] [].

Definition sample_world_late : World :=
  MkWorld (fun _ _ => Raise (FetchError "unreachable"))
          (fun _ => "2031-01-01 00:00:00") (fun _ => None)
          [("https://example.org/", "text")] 40 3 {[ fp := "left over" ]}
          sample_deque [INFO "earlier"] [60].

(** The world in which the [try] block starts. *)
Definition entered (w : World) : World :=
  (logger_info "Calling update_csv_stock" w).2.

(** Every company of [cs] resolves and both its requests, the next ones
    from request number [n] on, give their field. *)
Fixpoint fetches_succeed (w : World) (n : nat) (cs : list string) : bool :=
  match cs with
  | [] => true
  | company :: rest =>
      match lookup_ticker company with
      | Return ticker =>
          match quote_at w n ticker "regularMarketPrice",
                quote_at w (S n) ticker "regularMarketDayHigh" with
          | Return _, Return _ => fetches_succeed w (S (S n)) rest
          | _, _ => false
          end
      | Raise _ => false
      end
  end.

(** The labels of the dicts the program appends. *)
Definition record_keys : list string := ["Company"; "Ticker"; "Time"; "Price"].

(** Every item of the deque is a dict with the four labels. *)
Definition all_records (d : deque dict) : Prop :=
  Forall (fun r => map fst r = record_keys) (items d).

(** The line [to_csv] writes for a record. *)
Definition record_line (str_value : json -> string) (r : dict) : string :=
  csv_row (map (cell_text str_value) (map (dict_get r) record_keys)).

(** The message of the handler. *)
Definition error_message : string := "ERROR in update_csv_stock: ".

(** Unfolding the primitive effects. *)
Ltac py_unfold :=
  unfold each_company, get_stock_price, get_daily_high, save_snapshot,
    init_csv_file, to_csv, write_file, os_path_exists, records_deque_append,
    new_records_deque, get_records_deque, asyncio_sleep, datetime_now_strftime,
    fetch_from_url, logger_error, logger_info_path, logger_info_result,
    logger_info, lift, bind, ret, raise in *.

(** *** Vocabulary of the further properties *)

(** The payload has the shape the fetchers walk through: an object whose
    [optionChain] is an object whose [result] is a non-empty list whose
    first item is an object whose [quote] is an object that has [field],
    with value [v]. *)
Definition well_shaped (d : json) (field : string) (v : json) : Prop :=
  exists top chain entry rest quote,
    d = JObj top /\
    dict_get top "optionChain" = Some (JObj chain) /\
    dict_get chain "result" = Some (JArr (JObj entry :: rest)) /\
    dict_get entry "quote" = Some (JObj quote) /\
    dict_get quote field = Some v.

(** The exceptions the subscripts of a fetcher can raise on a payload. *)
Definition is_shape_error (field : string) (e : exn) : bool :=
  match e with
  | TypeError | IndexError => true
  | KeyError (KInt i) => (i =? 0)%Z
  | KeyError (KStr k) =>
      String.eqb k "optionChain" || String.eqb k "result"
      || String.eqb k "quote" || String.eqb k field
  | _ => false
  end.

(** Every request is answered with a payload that has both fields, and
    the disk never fails. *)
Definition healthy (w : World) : Prop :=
  (forall n url, exists r new_price daily_high,
      fetch_reply w n url = Return r /\
      subscript (data r) (quote_path "regularMarketPrice") = Return new_price /\
      subscript (data r) (quote_path "regularMarketDayHigh") = Return daily_high) /\
  (forall k, disk_fault w k = None).

(** The deque holds the records of the latest readings of the clock, one
    per reading, oldest first, none skipped. *)
Definition chronological (w : World) : Prop :=
  length (items (records_deque w)) <= clock_reads w /\
  map (fun r => dict_get r "Time") (items (records_deque w)) =
  map (fun i => Some (JStr (clock w i)))
      (seq (clock_reads w - length (items (records_deque w)))
           (length (items (records_deque w)))).

(** The same as [sample_world], with another day high in every answer. *)
Definition sample_world_other_high : World :=
  MkWorld (fun n _ => Return (MkResult (sample_quote (100 + Z.of_nat n) 777)))
          (clock sample_world) (disk_fault sample_world)
          [] 0 0 ∅ (deque_new 100) [] [].


(** * Properties *)

(** ** The bounded deque *)

Section Deque.
Context {A : Type}.
Implicit Types (d : deque A) (x : A) (xs l : list A).

Lemma keep_last_length n l : length (keep_last n l) = min n (length l).
Proof. unfold keep_last. rewrite length_drop. lia. Qed.

Lemma keep_last_all n l : length l <= n -> keep_last n l = l.
Proof.
  intros Hle. unfold keep_last.
  replace (length l - n) with 0 by lia. reflexivity.
Qed.

Lemma keep_last_app n l xs :
  keep_last n (keep_last n l ++ xs) = keep_last n (l ++ xs).
Proof.
  destruct (decide (length l <= n)) as [Hle|Hgt].
  - by rewrite (keep_last_all n l).
  - unfold keep_last at 1 3. rewrite !length_app, keep_last_length.
    unfold keep_last.
    replace (length l + length xs - n)
      with ((length l - n) + (n `min` length l + length xs - n)) by lia.
    rewrite <- drop_drop. f_equal.
    rewrite drop_app_le by lia. reflexivity.
Qed.

Lemma deque_append_maxlen d x : maxlen (deque_append d x) = maxlen d.
Proof. reflexivity. Qed.

Lemma deque_append_items d x :
  within_maxlen d ->
  items (deque_append d x) = keep_last (maxlen d) (items d ++ [x]).
Proof.
  unfold within_maxlen, deque_append, keep_last. intros Hle. simpl.
  rewrite length_app. simpl.
  destruct (Nat.ltb_spec (maxlen d) (length (items d) + 1)) as [Hlt|Hge].
  - replace (length (items d) + 1 - maxlen d) with 1 by lia.
    by destruct (items d ++ [x]).
  - replace (length (items d) + 1 - maxlen d) with 0 by lia. reflexivity.
Qed.

Lemma deque_append_within d x : within_maxlen d -> within_maxlen (deque_append d x).
Proof.
  intros Hle. unfold within_maxlen.
  rewrite deque_append_items, keep_last_length, deque_append_maxlen by done. lia.
Qed.

Lemma deque_new_within n : within_maxlen (@deque_new A n).
Proof. unfold within_maxlen. simpl. lia. Qed.

Lemma fold_append_maxlen xs d : maxlen (fold_left deque_append xs d) = maxlen d.
Proof. revert d. induction xs as [|x xs IH]; intros d; simpl; [done|]. by rewrite IH. Qed.

Lemma fold_append_within xs d :
  within_maxlen d -> within_maxlen (fold_left deque_append xs d).
Proof.
  revert d. induction xs as [|x xs IH]; intros d Hd; simpl; [done|].
  apply IH. by apply deque_append_within.
Qed.

(** After any run of appends the deque holds the last [maxlen] items of
    everything it was given, oldest first. *)
Lemma fold_append_items xs d :
  within_maxlen d ->
  items (fold_left deque_append xs d) = keep_last (maxlen d) (items d ++ xs).
Proof.
  revert d. induction xs as [|x xs IH]; intros d Hd; simpl.
  - rewrite app_nil_r. symmetry. by apply keep_last_all.
  - rewrite IH by (by apply deque_append_within).
    rewrite deque_append_maxlen, deque_append_items by done.
    rewrite keep_last_app. by rewrite <- app_assoc.
Qed.

Lemma deque_append_full d x :
  0 < maxlen d -> length (items d) = maxlen d ->
  items (deque_append d x) = tail (items d) ++ [x].
Proof.
  intros Hpos Hfull. unfold deque_append. simpl.
  rewrite length_app. simpl.
  destruct (Nat.ltb_spec (maxlen d) (length (items d) + 1)); [|lia].
  destruct (items d); simpl in *; [lia|done].
Qed.

Lemma deque_append_room d x :
  length (items d) < maxlen d -> items (deque_append d x) = items d ++ [x].
Proof.
  intros Hlt. unfold deque_append. simpl.
  rewrite length_app. simpl.
  destruct (Nat.ltb_spec (maxlen d) (length (items d) + 1)); [lia|done].
Qed.

End Deque.

(** ** The ticker directory *)

Lemma dict_display_fold_absent (kvs : list (string * string)) (k : string) :
  forall m : gmap string string,
    k ∉ kvs.*1 ->
    fold_left (fun m kv => <[kv.1 := kv.2]> m) kvs m !! k = m !! k.
Proof.
  induction kvs as [|[k' v'] kvs IH]; intros m Hk; simpl; [done|].
  simpl in Hk. apply not_elem_of_cons in Hk as [Hne Hk].
  rewrite IH by done. simpl. by rewrite lookup_insert_ne.
Qed.

Lemma dict_display_fold_present (kvs : list (string * string)) (k v : string) :
  forall m : gmap string string,
    NoDup kvs.*1 -> (k, v) ∈ kvs ->
    fold_left (fun m kv => <[kv.1 := kv.2]> m) kvs m !! k = Some v.
Proof.
  induction kvs as [|[k' v'] kvs IH]; intros m Hnd Hin; simpl.
  - by apply elem_of_nil in Hin.
  - simpl in Hnd. apply NoDup_cons in Hnd as [Hfresh Hnd].
    apply elem_of_cons in Hin as [Heq|Hin].
    + injection Heq as -> ->.
      rewrite dict_display_fold_absent by done. simpl. apply lookup_insert_eq.
    + by apply IH.
Qed.

Lemma stocks_dictionary_keys_NoDup : NoDup stocks_dictionary_items.*1.
Proof. apply (bool_decide_unpack _). by vm_compute. Qed.

Lemma lookup_ticker_known (company ticker : string) :
  (company, ticker) ∈ stocks_dictionary_items ->
  lookup_ticker company = Return ticker.
Proof.
  intros Hin. unfold lookup_ticker, stocks_dictionary, dict_display.
  by rewrite (dict_display_fold_present _ _ ticker)
    by auto using stocks_dictionary_keys_NoDup.
Qed.

Lemma lookup_ticker_unknown (company : string) :
  company ∉ stocks_dictionary_items.*1 ->
  lookup_ticker company = Raise (KeyError (KStr company)).
Proof.
  intros Hout. unfold lookup_ticker, stocks_dictionary, dict_display.
  by rewrite dict_display_fold_absent, lookup_empty.
Qed.

(** C3. For every company name that is a key of the ticker directory
    [lookup_ticker] returns exactly the ticker the directory gives for it;
    for every other name it raises [KeyError], a [LookupError], and
    returns nothing. *)
Theorem C3_lookup_ticker_total :
  (forall company ticker,
      (company, ticker) ∈ stocks_dictionary_items ->
      lookup_ticker company = Return ticker) /\
  (forall company,
      company ∉ stocks_dictionary_items.*1 ->
      exists e, lookup_ticker company = Raise e /\
                e = KeyError (KStr company) /\
                is_LookupError e = true).
Proof.
  split.
  - apply lookup_ticker_known.
  - intros company Hout. exists (KeyError (KStr company)).
    split; [by apply lookup_ticker_unknown|done].
Qed.

Lemma C3_lookup_ticker_witness :
  lookup_ticker "Costco Wholesale Corporation" = Return "COST" /\
  exists e, lookup_ticker "Nonexistent Corp" = Raise e /\
            e = KeyError (KStr "Nonexistent Corp") /\
            is_LookupError e = true.
Proof.
  split.
  - apply (proj1 C3_lookup_ticker_total).
    apply (bool_decide_unpack _). vm_compute. exact I.
  - apply (proj2 C3_lookup_ticker_total).
    apply (bool_decide_unpack _). vm_compute. exact I.
Defined.

(** ** The monad and the loops *)

Lemma for_each_app {A : Type} (xs ys : list A) (body : A -> Py unit) (w : World) :
  for_each (xs ++ ys) body w =
  match for_each xs body w with
  | (Return _, w1) => for_each ys body w1
  | (Raise e, w1) => (Raise e, w1)
  end.
Proof.
  revert w. induction xs as [|x xs IH]; intros w; simpl; [done|].
  unfold bind. destruct (body x w) as [[[]|e] w1]; [apply IH|done].
Qed.

(** A loop that raises stopped in one iteration: the ones before it
    returned, that one raised, and the world is the one it left. *)
Lemma for_each_Raise {A : Type} (xs : list A) (body : A -> Py unit) w e w' :
  for_each xs body w = (Raise e, w') ->
  exists pre x post w1,
    xs = pre ++ x :: post /\
    for_each pre body w = (Return tt, w1) /\
    body x w1 = (Raise e, w').
Proof.
  revert w. induction xs as [|x xs IH]; intros w Hrun; simpl in Hrun; [done|].
  unfold bind in Hrun. destruct (body x w) as [[[]|e1] w1] eqn:Hx.
  - destruct (IH _ Hrun) as (pre & y & post & w2 & -> & Hpre & Hy).
    exists (x :: pre), y, post, w2. split; [done|]. split; [|done].
    simpl. unfold bind. by rewrite Hx.
  - injection Hrun as -> ->. by exists [], x, xs, w.
Qed.

Lemma for_each_stops {A : Type} (pre post : list A) x (body : A -> Py unit)
    w w1 e w' :
  for_each pre body w = (Return tt, w1) ->
  body x w1 = (Raise e, w') ->
  for_each (pre ++ x :: post) body w = (Raise e, w').
Proof.
  intros Hpre Hx. rewrite for_each_app, Hpre. simpl. unfold bind. by rewrite Hx.
Qed.

(** A relation every iteration keeps is kept by the loop. *)
Lemma for_each_preserves {A : Type} (R : World -> World -> Prop)
    (xs : list A) (body : A -> Py unit) :
  (forall w, R w w) ->
  (forall w1 w2 w3, R w1 w2 -> R w2 w3 -> R w1 w3) ->
  (forall x w, R w (body x w).2) ->
  forall w, R w (for_each xs body w).2.
Proof.
  intros Hrefl Htrans Hbody. induction xs as [|x xs IH]; intros w; simpl.
  - apply Hrefl.
  - unfold bind. pose proof (Hbody x w) as Hx.
    destruct (body x w) as [[[]|e1] w1]; simpl in *; [|done].
    eapply Htrans; [exact Hx|apply IH].
Qed.

Lemma for_range_S (n : nat) (body : Py unit) (w : World) :
  for_range (S n) body w =
  match for_range n body w with
  | (Return _, w1) => body w1
  | (Raise e, w1) => (Raise e, w1)
  end.
Proof.
  unfold for_range. rewrite seq_S, for_each_app.
  destruct (for_each (seq 0 n) (fun _ => body) w) as [[[]|e] w1]; [|done].
  simpl. unfold bind, ret. by destruct (body w1) as [[[]|e] w2].
Qed.

(** ** One company *)

Lemma same_oracles_refl w : same_oracles w w.
Proof. by repeat split. Qed.

Lemma same_oracles_trans w1 w2 w3 :
  same_oracles w1 w2 -> same_oracles w2 w3 -> same_oracles w1 w3.
Proof. unfold same_oracles. intros (-> & -> & ->) (-> & -> & ->). done. Qed.

Lemma only_fetched_refl w : only_fetched w w.
Proof.
  unfold only_fetched. split; [apply same_oracles_refl|].
  repeat split; try done.
  - exists []. by rewrite app_nil_r.
  - exists []. by rewrite app_nil_r.
Qed.

Lemma only_fetched_trans w1 w2 w3 :
  only_fetched w1 w2 -> only_fetched w2 w3 -> only_fetched w1 w3.
Proof.
  intros (Ho1 & Hf1 & Hd1 & Hs1 & [m1 Hr1] & [i1 [Hl1 Hi1]])
         (Ho2 & Hf2 & Hd2 & Hs2 & [m2 Hr2] & [i2 [Hl2 Hi2]]).
  split; [by eapply same_oracles_trans|].
  repeat split; try congruence.
  - exists (m1 ++ m2). by rewrite Hr2, Hr1, app_assoc.
  - exists (i1 ++ i2). split; [by rewrite Hl2, Hl1, app_assoc|].
    by rewrite forallb_app, Hi1, Hi2.
Qed.

Lemma get_stock_price_run ticker w :
  (get_stock_price ticker w).1 = quote_at w (length (requests w)) ticker "regularMarketPrice" /\
  requests (get_stock_price ticker w).2 = requests w ++ [(options_url ticker, "json")] /\
  records_deque (get_stock_price ticker w).2 = records_deque w /\
  clock_reads (get_stock_price ticker w).2 = clock_reads w /\
  only_fetched w (get_stock_price ticker w).2.
Proof.
  unfold quote_at, quote_path, options_url, only_fetched, same_oracles.
  py_unfold. cbn -[subscript String.append].
  destruct (fetch_reply w _ _) as [r|e]; cbn -[subscript String.append];
    [destruct (subscript _ _); cbn -[String.append]|];
    (repeat split; eauto;
       eexists; rewrite <- ?app_assoc; (split; [reflexivity|done])).
Qed.

Lemma get_daily_high_run ticker w :
  (get_daily_high ticker w).1 = quote_at w (length (requests w)) ticker "regularMarketDayHigh" /\
  requests (get_daily_high ticker w).2 = requests w ++ [(options_url ticker, "json")] /\
  records_deque (get_daily_high ticker w).2 = records_deque w /\
  clock_reads (get_daily_high ticker w).2 = clock_reads w /\
  only_fetched w (get_daily_high ticker w).2.
Proof.
  unfold quote_at, quote_path, options_url, only_fetched, same_oracles.
  py_unfold. cbn -[subscript String.append].
  destruct (fetch_reply w _ _) as [r|e]; cbn -[subscript String.append];
    [destruct (subscript _ _); cbn -[String.append]|];
    (repeat split; eauto;
       eexists; rewrite <- ?app_assoc; (split; [reflexivity|done])).
Qed.

Lemma quote_at_same_oracles w w' n ticker field :
  same_oracles w w' -> quote_at w' n ticker field = quote_at w n ticker field.
Proof. intros (Hf & _ & _). unfold quote_at. by rewrite Hf. Qed.

Lemma each_company_unknown company w e :
  lookup_ticker company = Raise e -> each_company company w = (Raise e, w).
Proof. intros Hmiss. unfold each_company, bind, lift. by rewrite Hmiss. Qed.

Lemma each_company_only_fetched company w :
  only_fetched w (each_company company w).2.
Proof.
  unfold each_company, bind, lift.
  destruct (lookup_ticker company) as [t|e]; [|apply only_fetched_refl].
  pose proof (get_stock_price_run t w) as (_ & _ & _ & _ & Hw1).
  destruct (get_stock_price t w) as [[p|e] w1]; simpl in *; [|done].
  pose proof (get_daily_high_run t w1) as (_ & _ & _ & _ & Hw2).
  destruct (get_daily_high t w1) as [[h|e] w2]; simpl in *;
    [|by eapply only_fetched_trans].
  eapply only_fetched_trans; [exact Hw1|].
  eapply only_fetched_trans; [exact Hw2|].
  unfold only_fetched, same_oracles. simpl. repeat split; try done.
  - exists []. by rewrite app_nil_r.
  - exists []. by rewrite app_nil_r.
Qed.

(** A company whose processing raises leaves the deque as it was. *)
Lemma each_company_Raise company w e w' :
  each_company company w = (Raise e, w') ->
  records_deque w' = records_deque w /\ clock_reads w' = clock_reads w.
Proof.
  unfold each_company, bind, lift.
  destruct (lookup_ticker company) as [t|e0]; [|by intros [= _ ->]].
  pose proof (get_stock_price_run t w) as (_ & _ & Hd1 & Hc1 & _).
  destruct (get_stock_price t w) as [[p|e1] w1]; simpl in *;
    [|by intros [= _ ->]].
  pose proof (get_daily_high_run t w1) as (_ & _ & Hd2 & Hc2 & _).
  destruct (get_daily_high t w1) as [[h|e2] w2]; simpl in *.
  - done.
  - intros [= _ ->]. split; congruence.
Qed.

(** A company whose processing returns was resolved, had both its fields
    fetched, and left one record, stamped with the clock, at the right end
    of the deque. *)
Lemma each_company_Return company w w' :
  each_company company w = (Return tt, w') ->
  exists ticker new_price daily_high,
    lookup_ticker company = Return ticker /\
    quote_at w (length (requests w)) ticker "regularMarketPrice" = Return new_price /\
    quote_at w (S (length (requests w))) ticker "regularMarketDayHigh" = Return daily_high /\
    records_deque w' =
      deque_append (records_deque w)
        (new_record company ticker (clock w (clock_reads w)) new_price) /\
    requests w' = requests w ++ requests_of company /\
    clock_reads w' = S (clock_reads w).
Proof.
  unfold each_company, bind, lift, requests_of.
  destruct (lookup_ticker company) as [t|e0]; [|done].
  pose proof (get_stock_price_run t w) as (Hp & Hr1 & Hd1 & Hc1 & Ho1 & _).
  destruct (get_stock_price t w) as [[p|e1] w1]; simpl in *; [|done].
  pose proof (get_daily_high_run t w1) as (Hh & Hr2 & Hd2 & Hc2 & Ho2 & _).
  destruct (get_daily_high t w1) as [[h|e2] w2]; simpl in *; [|done].
  intros [= <-]. exists t, p, h. simpl.
  rewrite (quote_at_same_oracles w w1) in Hh by done.
  rewrite Hr1, length_app, Nat.add_1_r in Hh.
  destruct Ho1 as (_ & Hk1 & _), Ho2 as (_ & Hk2 & _).
  repeat split; try done.
  - rewrite Hd2, Hd1, Hc2, Hc1, Hk2, Hk1. reflexivity.
  - rewrite Hr2, Hr1, <- app_assoc. reflexivity.
  - by rewrite Hc2, Hc1.
Qed.

Lemma each_company_maxlen company w :
  maxlen (records_deque (each_company company w).2) = maxlen (records_deque w).
Proof.
  destruct (each_company company w) as [[[]|e] w'] eqn:Hrun; simpl.
  - apply each_company_Return in Hrun as (t & p & h & _ & _ & _ & -> & _).
    reflexivity.
  - apply each_company_Raise in Hrun as [-> _]. reflexivity.
Qed.

Lemma each_company_within company w :
  within_maxlen (records_deque w) ->
  within_maxlen (records_deque (each_company company w).2).
Proof.
  intros Hw. destruct (each_company company w) as [[[]|e] w'] eqn:Hrun; simpl.
  - apply each_company_Return in Hrun as (t & p & h & _ & _ & _ & -> & _).
    by apply deque_append_within.
  - apply each_company_Raise in Hrun as [-> _]. done.
Qed.

(** ** One pass over the tracked list *)

Lemma companies_only_fetched cs w :
  only_fetched w (for_each cs each_company w).2.
Proof.
  apply (for_each_preserves only_fetched).
  - apply only_fetched_refl.
  - apply only_fetched_trans.
  - apply each_company_only_fetched.
Qed.

Lemma companies_maxlen cs w :
  maxlen (records_deque (for_each cs each_company w).2) = maxlen (records_deque w).
Proof.
  apply (for_each_preserves
           (fun w w' => maxlen (records_deque w') = maxlen (records_deque w)));
    [done|congruence|apply each_company_maxlen].
Qed.

Lemma companies_within cs w :
  within_maxlen (records_deque w) ->
  within_maxlen (records_deque (for_each cs each_company w).2).
Proof.
  apply (for_each_preserves
           (fun w w' => within_maxlen (records_deque w) ->
                        within_maxlen (records_deque w')));
    [done|tauto|apply each_company_within].
Qed.

(** A pass in which nothing raised appended one record per company, in
    the order of the list; the [i]-th of them carries the [i]-th name, its
    ticker, the [i]-th reading of the clock and the price of request
    number [2 * i] of the pass. *)
Lemma companies_Return cs w w' :
  for_each cs each_company w = (Return tt, w') ->
  exists news,
    length news = length cs /\
    (forall i company, cs !! i = Some company ->
       exists ticker new_price,
         lookup_ticker company = Return ticker /\
         quote_at w (length (requests w) + 2 * i) ticker "regularMarketPrice"
           = Return new_price /\
         news !! i = Some (new_record company ticker
                             (clock w (clock_reads w + i)) new_price)) /\
    records_deque w' = fold_left deque_append news (records_deque w) /\
    requests w' = requests w ++ concat (map requests_of cs) /\
    clock_reads w' = clock_reads w + length cs.
Proof.
  revert w. induction cs as [|c cs IH]; intros w Hrun; simpl in Hrun.
  - injection Hrun as <-. exists []. simpl.
    rewrite app_nil_r, Nat.add_0_r. repeat split; try done.
  - unfold bind in Hrun.
    pose proof (each_company_only_fetched c w) as (Ho & _).
    destruct (each_company c w) as [[[]|e] w1] eqn:Hc; [|done]. simpl in Ho.
    apply each_company_Return in Hc as (t & p & h & Ht & Hp & _ & Hd & Hr & Hk).
    destruct (IH _ Hrun) as (news & Hlen & Hith & Hd' & Hr' & Hk').
    exists (new_record c t (clock w (clock_reads w)) p :: news).
    split; [simpl; by rewrite Hlen|]. split; [|split; [|split]].
    + intros [|i] company Hi; simpl in Hi.
      * injection Hi as <-. exists t, p.
        by rewrite !Nat.add_0_r.
      * destruct (Hith _ _ Hi) as (t' & p' & Ht' & Hp' & Hn').
        exists t', p'. split; [done|]. split.
        -- rewrite (quote_at_same_oracles w w1) in Hp' by done.
           rewrite Hr, length_app in Hp'.
           assert (length (requests_of c) = 2) as Hlen2
             by (unfold requests_of; by rewrite Ht).
           rewrite Hlen2 in Hp'.
           by replace (length (requests w) + 2 * S i)
             with (length (requests w) + 2 + 2 * i) by lia.
        -- simpl. rewrite Hn'. destruct Ho as (_ & -> & _). rewrite Hk.
           by replace (S (clock_reads w) + i) with (clock_reads w + S i) by lia.
    + simpl. by rewrite Hd', Hd.
    + simpl. by rewrite Hr', Hr, <- app_assoc.
    + simpl. rewrite Hk', Hk. lia.
Qed.

(** ** One round, and the rounds *)

Lemma logged_infos_refl w : logged_infos w w.
Proof. exists []. by rewrite app_nil_r. Qed.

Lemma logged_infos_trans w1 w2 w3 :
  logged_infos w1 w2 -> logged_infos w2 w3 -> logged_infos w1 w3.
Proof.
  intros (i1 & Hl1 & Hi1) (i2 & Hl2 & Hi2). exists (i1 ++ i2).
  split; [by rewrite Hl2, Hl1, app_assoc|by rewrite forallb_app, Hi1, Hi2].
Qed.

Lemma only_fetched_logged_infos w w' : only_fetched w w' -> logged_infos w w'.
Proof. by intros (_ & _ & _ & _ & _ & Hlog). Qed.

Section Rounds.

Variable str_value : json -> string.

Lemma init_csv_file_text :
  unlines (csv_lines str_value
             (DataFrame_columns ["Company"; "Ticker"; "Time"; "Stock_Price"]))
  = init_header +:+ newline.
Proof. reflexivity. Qed.

(** A round that returned: every company was processed, the snapshot was
    written from the deque as the pass left it, the round slept once. *)
Lemma each_update_Return cs w w' :
  each_update str_value cs w = (Return tt, w') ->
  exists w1,
    for_each cs each_company w = (Return tt, w1) /\
    disk_fault w (disk_writes w) = None /\
    files w' = <[fp := snapshot_text str_value (records_deque w1)]> (files w) /\
    records_deque w' = records_deque w1 /\
    requests w' = requests w1 /\
    clock_reads w' = clock_reads w1 /\
    disk_writes w' = S (disk_writes w) /\
    sleeps w' = sleeps w ++ [update_interval].
Proof.
  unfold each_update, bind. intros Hrun.
  pose proof (companies_only_fetched cs w) as (Ho & Hf & Hd & Hs & _).
  destruct (for_each cs each_company w) as [[[]|e] w1]; [|done].
  simpl in *. exists w1. split; [done|].
  destruct Ho as (_ & _ & Hfault).
  py_unfold. rewrite Hfault, Hd in Hrun.
  destruct (disk_fault w (disk_writes w)) as [f|]; [done|].
  injection Hrun as <-. simpl. rewrite Hf, Hs. done.
Qed.

(** A round that raised: a company raised and the round ended there, or
    the pass returned and the write raised.  It did not sleep. *)
Lemma each_update_Raise cs w e w' :
  each_update str_value cs w = (Raise e, w') ->
  sleeps w' = sleeps w /\
  (for_each cs each_company w = (Raise e, w') \/
   exists w1 f,
     for_each cs each_company w = (Return tt, w1) /\
     disk_fault w (disk_writes w) = Some f /\ e = fault_exn f /\
     records_deque w' = records_deque w1 /\ requests w' = requests w1 /\
     log w' = log w1).
Proof.
  unfold each_update, bind. intros Hrun.
  pose proof (companies_only_fetched cs w) as (Ho & Hf & Hd & Hs & _).
  destruct (for_each cs each_company w) as [[[]|e1] w1]; simpl in *.
  - destruct Ho as (_ & _ & Hfault).
    py_unfold. rewrite Hfault, Hd in Hrun.
    destruct (disk_fault w (disk_writes w)) as [f|]; [|done].
    injection Hrun as <- <-. simpl. split; [done|].
    right. by exists w1, f.
  - injection Hrun as <- <-. split; [done|]. by left.
Qed.

Lemma each_update_same_oracles cs w :
  same_oracles w (each_update str_value cs w).2.
Proof.
  unfold each_update, bind.
  pose proof (companies_only_fetched cs w) as (Ho & _).
  destruct (for_each cs each_company w) as [[[]|e1] w1]; simpl in *; [|done].
  py_unfold. destruct (disk_fault w1 (disk_writes w1)); simpl; exact Ho.
Qed.

Lemma each_update_logged_infos cs w :
  logged_infos w (each_update str_value cs w).2.
Proof.
  unfold each_update, bind.
  pose proof (only_fetched_logged_infos _ _ (companies_only_fetched cs w)) as Hl.
  destruct (for_each cs each_company w) as [[[]|e1] w1]; simpl in *; [|done].
  py_unfold. destruct (disk_fault w1 (disk_writes w1)); simpl; [done|].
  eapply logged_infos_trans; [exact Hl|]. by eexists [_].
Qed.

Lemma each_update_maxlen cs w :
  maxlen (records_deque (each_update str_value cs w).2) = maxlen (records_deque w).
Proof.
  unfold each_update, bind.
  pose proof (companies_maxlen cs w) as Hm.
  destruct (for_each cs each_company w) as [[[]|e1] w1]; simpl in *; [|done].
  py_unfold. by destruct (disk_fault w1 (disk_writes w1)).
Qed.

Lemma each_update_within cs w :
  within_maxlen (records_deque w) ->
  within_maxlen (records_deque (each_update str_value cs w).2).
Proof.
  intros Hw. unfold each_update, bind.
  pose proof (companies_within cs w Hw) as Hm.
  destruct (for_each cs each_company w) as [[[]|e1] w1]; simpl in *; [|done].
  py_unfold. by destruct (disk_fault w1 (disk_writes w1)).
Qed.

(** [n] rounds that all returned slept [n] times. *)
Lemma rounds_Return cs n w w' :
  for_range n (each_update str_value cs) w = (Return tt, w') ->
  sleeps w' = sleeps w ++ replicate n update_interval.
Proof.
  revert w'. induction n as [|n IH]; intros w' Hrun.
  - injection Hrun as <-. simpl. by rewrite app_nil_r.
  - rewrite for_range_S in Hrun.
    destruct (for_range n _ w) as [[[]|e] w1]; [|done].
    apply each_update_Return in Hrun as (w2 & _ & _ & _ & _ & _ & _ & _ & Hs).
    rewrite Hs, (IH w1) by done.
    rewrite <- app_assoc. f_equal.
    change [update_interval] with (replicate 1 update_interval).
    rewrite <- replicate_add. f_equal. lia.
Qed.

(** Rounds that raised: fewer than [n] rounds returned, the next one
    raised, and the loop ended in the world that round left. *)
Lemma rounds_Raise cs n w e w' :
  for_range n (each_update str_value cs) w = (Raise e, w') ->
  exists k wk,
    k < n /\
    for_range k (each_update str_value cs) w = (Return tt, wk) /\
    each_update str_value cs wk = (Raise e, w').
Proof.
  induction n as [|n IH]; intros Hrun; [done|].
  rewrite for_range_S in Hrun.
  destruct (for_range n _ w) as [[[]|e1] w1] eqn:Hn.
  - exists n, w1. split; [lia|done].
  - injection Hrun as -> ->.
    destruct IH as (k & wk & Hk & Hpre & Hlast); [done|].
    exists k, wk. split; [lia|done].
Qed.

Lemma rounds_preserve (R : World -> World -> Prop) cs n :
  (forall w, R w w) ->
  (forall w1 w2 w3, R w1 w2 -> R w2 w3 -> R w1 w3) ->
  (forall w, R w (each_update str_value cs w).2) ->
  forall w, R w (for_range n (each_update str_value cs) w).2.
Proof.
  intros Hrefl Htrans Hbody w. unfold for_range.
  by apply (for_each_preserves R).
Qed.

End Rounds.

(** ** Start-up *)

Section Startup.

Variable str_value : json -> string.

(** Start-up always makes the deque anew and issues no request; it writes
    the file exactly when the file is not there. *)
Lemma startup_run n w :
  records_deque (startup str_value n w).2 = deque_new n /\
  requests (startup str_value n w).2 = requests w /\
  sleeps (startup str_value n w).2 = sleeps w /\
  clock_reads (startup str_value n w).2 = clock_reads w /\
  same_oracles w (startup str_value n w).2 /\
  logged_infos w (startup str_value n w).2 /\
  match files w !! fp with
  | Some _ =>
      (startup str_value n w).1 = Return tt /\
      files (startup str_value n w).2 = files w /\
      disk_writes (startup str_value n w).2 = disk_writes w
  | None =>
      disk_writes (startup str_value n w).2 = S (disk_writes w) /\
      match disk_fault w (disk_writes w) with
      | None =>
          (startup str_value n w).1 = Return tt /\
          files (startup str_value n w).2 =
            <[fp := init_header +:+ newline]> (files w)
      | Some f =>
          (startup str_value n w).1 = Raise (fault_exn f)
      end
  end.
Proof.
  unfold startup, logged_infos, same_oracles. py_unfold.
  cbn -[pretty String.append fp].
  destruct (files w !! fp) as [old|] eqn:Hfile; cbn -[pretty String.append fp].
  - repeat split; try done.
    eexists. rewrite <- !app_assoc. split; [reflexivity|done].
  - destruct (disk_fault w (disk_writes w)) as [f|];
      cbn -[pretty String.append fp].
    + repeat split; try done.
      eexists. rewrite <- !app_assoc. split; [reflexivity|done].
    + repeat split; try done.
      eexists. rewrite <- !app_assoc. split; [reflexivity|done].
Qed.

End Startup.

(** ** The whole run *)

Lemma keep_last_app_full {A : Type} (n : nat) (l xs : list A) :
  length xs = n -> keep_last n (l ++ xs) = xs.
Proof.
  intros Hlen. unfold keep_last. rewrite length_app, Hlen.
  replace (length l + n - n) with (length l) by lia.
  by rewrite drop_app_length.
Qed.

Section Run.

Variable str_value : json -> string.

Lemma try_block_run cs n w :
  try_block str_value cs n w =
  match startup str_value n w with
  | (Return _, w0) => for_range n (each_update str_value cs) w0
  | (Raise e, w0) => (Raise e, w0)
  end.
Proof. unfold try_block, bind. by destruct (startup str_value n w) as [[[]|e] w0]. Qed.

Lemma update_csv_stock_for_run cs n w :
  update_csv_stock_for str_value cs n w =
  match try_block str_value cs n (entered w) with
  | (Return _, w1) => (Return tt, w1)
  | (Raise e, w1) =>
      (Return tt, (logger_error error_message e w1).2)
  end.
Proof.
  unfold update_csv_stock_for, try_except, bind, entered. simpl.
  by destruct (try_block _ _ _ _) as [[[]|e] w1].
Qed.

Lemma try_block_deque cs n w :
  maxlen (records_deque (try_block str_value cs n w).2) = n /\
  within_maxlen (records_deque (try_block str_value cs n w).2).
Proof.
  rewrite try_block_run.
  pose proof (startup_run str_value n w) as (Hd & _).
  destruct (startup str_value n w) as [[[]|e] w0]; simpl in *.
  - pose proof (rounds_preserve str_value
        (fun w w' => maxlen (records_deque w') = maxlen (records_deque w) /\
                     (within_maxlen (records_deque w) ->
                      within_maxlen (records_deque w'))) cs n) as Hkeep.
    destruct (Hkeep) with (w := w0) as [Hm Hw].
    + done.
    + intros w1 w2 w3 [? ?] [? ?]. split; [congruence|tauto].
    + intros w1. split; [apply each_update_maxlen|apply each_update_within].
    + rewrite Hm, Hd in *. split; [done|]. apply Hw, deque_new_within.
  - rewrite Hd. split; [done|apply deque_new_within].
Qed.

Lemma update_csv_stock_for_deque cs n w :
  maxlen (records_deque (update_csv_stock_for str_value cs n w).2) = n /\
  within_maxlen (records_deque (update_csv_stock_for str_value cs n w).2).
Proof.
  rewrite update_csv_stock_for_run.
  pose proof (try_block_deque cs n (entered w)) as Hd.
  by destruct (try_block _ _ _ _) as [[[]|e] w1].
Qed.

(** With two tracked companies and [num_updates = 2], a run in which
    nothing raised ends with the two records of the second round. *)
Lemma two_rounds_of_two A B w w' :
  try_block str_value [A; B] 2 w = (Return tt, w') ->
  exists ta tb pa pb,
    lookup_ticker A = Return ta /\ lookup_ticker B = Return tb /\
    items (records_deque w') =
      [ new_record A ta (clock w (clock_reads w + 2)) pa;
        new_record B tb (clock w (clock_reads w + 3)) pb ].
Proof.
  rewrite try_block_run.
  pose proof (startup_run str_value 2 w) as (Hd0 & _ & _ & Hk0 & Ho0 & _).
  destruct (startup str_value 2 w) as [[[]|e] w0]; [|done]. simpl in *.
  rewrite !for_range_S. unfold for_range. simpl. unfold ret.
  pose proof (each_update_same_oracles str_value [A; B] w0) as Ho1.
  pose proof (each_update_within str_value [A; B] w0) as Hin1.
  pose proof (each_update_maxlen str_value [A; B] w0) as Hm1.
  destruct (each_update str_value [A; B] w0) as [[[]|e] w1] eqn:H1; [|done].
  simpl in *. intros H2.
  apply each_update_Return in H1 as (w1' & H1 & _ & _ & Hd1 & _ & Hk1 & _).
  apply companies_Return in H1 as (news1 & _ & _ & _ & _ & Hk1').
  apply each_update_Return in H2 as (w2' & H2 & _ & _ & Hd2 & _).
  apply companies_Return in H2 as (news2 & Hlen2 & Hith2 & Hd2' & _).
  destruct (Hith2 0 A eq_refl) as (ta & pa & Hta & _ & Ha).
  destruct (Hith2 1 B eq_refl) as (tb & pb & Htb & _ & Hb).
  exists ta, tb, pa, pb. split; [done|]. split; [done|].
  rewrite Hd2, Hd2', fold_append_items
    by (rewrite Hd0 in Hin1; apply Hin1, deque_new_within).
  rewrite Hm1, Hd0. simpl. rewrite keep_last_app_full by done.
  destruct news2 as [|r1 [|r2 [|r3 news2]]]; try done.
  simpl in Ha, Hb. injection Ha as ->. injection Hb as ->.
  destruct Ho0 as (_ & Hc0 & _), Ho1 as (_ & Hc1 & _).
  rewrite Hc1, Hc0, Hk1, Hk1', Hk0. simpl.
  by replace (clock_reads w + 2 + 0) with (clock_reads w + 2) by lia;
     replace (clock_reads w + 2 + 1) with (clock_reads w + 3) by lia.
Qed.

(** C2. The deque never holds more than its [maxlen]: after any run of
    appends to a new deque it holds the last [maxlen] items appended, in
    the order they came; a full deque drops exactly its oldest item on the
    next append and keeps the others in order before the new one.  The
    program's deque has [maxlen = num_updates] (100) and stays within it.
    With capacity 2 and two tracked companies, two rounds leave exactly
    the two records of the second round. *)
Theorem C2_bounded_history :
  (forall (n : nat) (xs : list dict),
      length (items (fold_left deque_append xs (deque_new n))) <= n /\
      items (fold_left deque_append xs (deque_new n)) = keep_last n xs) /\
  (forall (d : deque dict) (x : dict),
      0 < maxlen d -> length (items d) = maxlen d ->
      items (deque_append d x) = tail (items d) ++ [x]) /\
  (forall w,
      maxlen (records_deque (update_csv_stock str_value w).2) = 100 /\
      length (items (records_deque (update_csv_stock str_value w).2)) <= 100) /\
  (forall A B w w',
      try_block str_value [A; B] 2 w = (Return tt, w') ->
      exists ta tb pa pb,
        lookup_ticker A = Return ta /\ lookup_ticker B = Return tb /\
        items (records_deque w') =
          [ new_record A ta (clock w (clock_reads w + 2)) pa;
            new_record B tb (clock w (clock_reads w + 3)) pb ]).
Proof.
  split; [|split; [|split]].
  - intros n xs. split.
    + pose proof (fold_append_within xs _ (deque_new_within n)) as Hw.
      unfold within_maxlen in Hw. by rewrite fold_append_maxlen in Hw.
    + by rewrite fold_append_items by apply deque_new_within.
  - intros d x. apply deque_append_full.
  - intros w. unfold update_csv_stock.
    destruct (update_csv_stock_for_deque companies num_updates w) as [Hm Hw].
    unfold within_maxlen in Hw. rewrite Hm in Hw. done.
  - apply two_rounds_of_two.
Qed.

End Run.

Lemma C2_bounded_history_witness :
  items (deque_append (Deque 2 [new_record "a" "A" "T0" (JInt 1);
                                new_record "b" "B" "T0" (JInt 2)])
                      (new_record "a" "A" "T1" (JInt 3)))
  = [new_record "b" "B" "T0" (JInt 2); new_record "a" "A" "T1" (JInt 3)] /\
  exists ta tb pa pb,
    lookup_ticker "Synopys" = Return ta /\
    lookup_ticker "CDW Corporation" = Return tb /\
    items (records_deque
             (try_block sample_str ["Synopys"; "CDW Corporation"] 2 sample_world).2)
    = [ new_record "Synopys" ta "T2" pa;
        new_record "CDW Corporation" tb "T3" pb ].
Proof.
  split.
  - apply (proj1 (proj2 (C2_bounded_history sample_str))); simpl; [lia|reflexivity].
  - apply (proj2 (proj2 (proj2 (C2_bounded_history sample_str)))
             "Synopys" "CDW Corporation" sample_world).
    vm_compute. reflexivity.
Defined.

(** ** The order of a round and its requests *)

Lemma fetches_succeed_same_oracles w w' n cs :
  same_oracles w w' -> fetches_succeed w' n cs = fetches_succeed w n cs.
Proof.
  intros Ho. revert n. induction cs as [|c cs IH]; intros n; simpl; [done|].
  destruct (lookup_ticker c) as [t|]; [|done].
  rewrite !(quote_at_same_oracles w w') by done.
  destruct (quote_at w n t _); [|done].
  destruct (quote_at w (S n) t _); [|done].
  apply IH.
Qed.

Lemma each_company_succeeds company ticker w new_price daily_high :
  lookup_ticker company = Return ticker ->
  quote_at w (length (requests w)) ticker "regularMarketPrice" = Return new_price ->
  quote_at w (S (length (requests w))) ticker "regularMarketDayHigh"
    = Return daily_high ->
  exists w', each_company company w = (Return tt, w').
Proof.
  intros Ht Hp Hh. unfold each_company, bind, lift. rewrite Ht.
  pose proof (get_stock_price_run ticker w) as (Hp1 & Hr1 & _ & _ & Ho1 & _).
  destruct (get_stock_price ticker w) as [[p|e1] w1]; simpl in *;
    [|congruence].
  pose proof (get_daily_high_run ticker w1) as (Hh1 & _).
  rewrite (quote_at_same_oracles w w1 _ _ _ Ho1), Hr1, length_app,
    Nat.add_1_r in Hh1.
  destruct (get_daily_high ticker w1) as [[h|e2] w2]; simpl in *;
    [|congruence].
  by eexists.
Qed.

(** When every fetch of a pass succeeds the pass returns. *)
Lemma companies_succeed cs w :
  fetches_succeed w (length (requests w)) cs = true ->
  exists w', for_each cs each_company w = (Return tt, w').
Proof.
  revert w. induction cs as [|c cs IH]; intros w Hok; simpl in *.
  - by eexists.
  - destruct (lookup_ticker c) as [t|] eqn:Ht; [|done].
    destruct (quote_at w _ t "regularMarketPrice") as [p|] eqn:Hp; [|done].
    destruct (quote_at w _ t "regularMarketDayHigh") as [h|] eqn:Hh; [|done].
    destruct (each_company_succeeds c t w p h Ht Hp Hh) as [w1 Hc].
    pose proof (each_company_only_fetched c w) as (Ho & _).
    unfold bind. rewrite Hc in Ho |- *. simpl in Ho.
    apply each_company_Return in Hc as (t' & _ & _ & Ht' & _ & _ & _ & Hr & _).
    apply IH. rewrite (fetches_succeed_same_oracles w w1) by done.
    rewrite Hr, length_app. unfold requests_of. rewrite Ht'. simpl.
    by replace (length (requests w) + 2) with (S (S (length (requests w))))
      by lia.
Qed.

Lemma new_records_companies cs w news :
  length news = length cs ->
  (forall i company, cs !! i = Some company ->
     exists ticker new_price,
       lookup_ticker company = Return ticker /\
       quote_at w (length (requests w) + 2 * i) ticker "regularMarketPrice"
         = Return new_price /\
       news !! i = Some (new_record company ticker
                           (clock w (clock_reads w + i)) new_price)) ->
  map (fun r => dict_get r "Company") news = map (fun c => Some (JStr c)) cs.
Proof.
  intros Hlen Hith. apply list_eq. intros i.
  rewrite !list_lookup_fmap.
  destruct (cs !! i) as [c|] eqn:Hc; simpl.
  - destruct (Hith _ _ Hc) as (t & p & _ & _ & ->). reflexivity.
  - apply lookup_ge_None in Hc. rewrite <- Hlen in Hc.
    apply lookup_ge_None in Hc. by rewrite Hc.
Qed.

(** C5. In a round in which every company resolves and every fetch
    succeeds, the pass over the tracked list returns and appends one
    record per company, in exactly the order of the list: the names of the
    records appended are the list itself, and they arrive on the deque in
    that order. *)
Theorem C5_round_order (cs : list string) (w : World) :
  fetches_succeed w (length (requests w)) cs = true ->
  exists w' news,
    for_each cs each_company w = (Return tt, w') /\
    map (fun r => dict_get r "Company") news = map (fun c => Some (JStr c)) cs /\
    records_deque w' = fold_left deque_append news (records_deque w) /\
    (within_maxlen (records_deque w) ->
     items (records_deque w') =
       keep_last (maxlen (records_deque w)) (items (records_deque w) ++ news)) /\
    (length (items (records_deque w)) + length cs <= maxlen (records_deque w) ->
     items (records_deque w') = items (records_deque w) ++ news).
Proof.
  intros Hok. destruct (companies_succeed cs w Hok) as [w' Hrun].
  destruct (companies_Return cs w w' Hrun) as (news & Hlen & Hith & Hd & _).
  exists w', news. split; [done|].
  split; [by eapply new_records_companies|].
  split; [done|]. split.
  - intros Hin. by rewrite Hd, fold_append_items.
  - intros Hroom. rewrite Hd, fold_append_items by (unfold within_maxlen; lia).
    apply keep_last_all. rewrite length_app. lia.
Qed.

Lemma C5_round_order_witness :
  exists w' news,
    for_each ["Intuit Inc."; "Synopys"; "Brown & Brown Inc."] each_company
             sample_world = (Return tt, w') /\
    map (fun r => dict_get r "Company") news =
      [Some (JStr "Intuit Inc."); Some (JStr "Synopys");
       Some (JStr "Brown & Brown Inc.")] /\
    records_deque w' = fold_left deque_append news (records_deque sample_world).
Proof.
  destruct (C5_round_order ["Intuit Inc."; "Synopys"; "Brown & Brown Inc."]
              sample_world) as (w' & news & Hrun & Hnames & Hdeque & _).
  - vm_compute. reflexivity.
  - exists w', news. split; [exact Hrun|]. split; [exact Hnames|exact Hdeque].
Defined.

Section Requests.

Variable str_value : json -> string.

Lemma requests_of_resolved cs w w' :
  for_each cs each_company w = (Return tt, w') ->
  Forall (fun company =>
            exists ticker,
              lookup_ticker company = Return ticker /\
              requests_of company =
                [(options_url ticker, "json"); (options_url ticker, "json")]) cs.
Proof.
  intros Hrun. apply companies_Return in Hrun as (news & _ & Hith & _).
  apply Forall_lookup_2. intros i c Hc.
  destruct (Hith _ _ Hc) as (t & _ & Ht & _).
  exists t. split; [done|]. unfold requests_of. by rewrite Ht.
Qed.

Lemma concat_length_uniform {A : Type} (k : nat) (ls : list (list A)) :
  Forall (fun l => length l = k) ls -> length (concat ls) = k * length ls.
Proof.
  induction 1 as [|l ls Hl _ IH]; simpl; [lia|].
  rewrite length_app, IH, Hl. lia.
Qed.

(** C7. [get_stock_price] and [get_daily_high] each issue exactly one
    request per call, to the options address of the ticker, whatever
    the call then returns or raises.  A round that ran without error
    issued exactly two requests per tracked company, in the order of the
    list, both to the same address, that of the company's ticker. *)
Theorem C7_two_requests_per_company :
  (forall ticker w,
      requests (get_stock_price ticker w).2 =
        requests w ++ [(options_url ticker, "json")] /\
      requests (get_daily_high ticker w).2 =
        requests w ++ [(options_url ticker, "json")]) /\
  (forall cs w w',
      each_update str_value cs w = (Return tt, w') ->
      requests w' = requests w ++ concat (map requests_of cs) /\
      Forall (fun company =>
                exists ticker,
                  lookup_ticker company = Return ticker /\
                  requests_of company =
                    [(options_url ticker, "json"); (options_url ticker, "json")])
             cs /\
      length (requests w') = length (requests w) + 2 * length cs).
Proof.
  split.
  - intros ticker w.
    pose proof (get_stock_price_run ticker w) as (_ & Hp & _).
    pose proof (get_daily_high_run ticker w) as (_ & Hh & _). done.
  - intros cs w w' Hrun.
    apply each_update_Return in Hrun as (w1 & Hpass & _ & _ & _ & Hr & _).
    pose proof (requests_of_resolved cs w w1 Hpass) as Hres.
    apply companies_Return in Hpass as (news & _ & _ & _ & Hr1 & _).
    rewrite Hr, Hr1. split; [done|]. split; [done|].
    rewrite length_app. f_equal.
    rewrite (concat_length_uniform 2), length_map; [done|].
    apply Forall_fmap. eapply Forall_impl; [exact Hres|].
    intros c (t & _ & Heq). simpl. by rewrite Heq.
Qed.

End Requests.

Lemma C7_two_requests_per_company_witness :
  requests (each_update sample_str ["Intuit Inc."; "CDW Corporation"] sample_world).2
  = [ (options_url "INTU", "json"); (options_url "INTU", "json");
      (options_url "CDW", "json"); (options_url "CDW", "json") ].
Proof.
  destruct (each_update sample_str ["Intuit Inc."; "CDW Corporation"] sample_world)
    as [r w'] eqn:Hrun.
  assert (r = Return tt) as -> by (vm_compute in Hrun; congruence).
  exact (proj1 (proj2 (C7_two_requests_per_company sample_str) _ _ _ Hrun)).
Defined.

(** ** What a snapshot looks like *)

Lemma union_keys_fold_records (rs : list dict) :
  Forall (fun r => map fst r = record_keys) rs ->
  fold_left (fun seen r => add_keys seen (map fst r)) rs record_keys = record_keys.
Proof.
  induction 1 as [|r rs Hr _ IH]; simpl; [done|].
  rewrite Hr. exact IH.
Qed.

Lemma union_keys_records (rs : list dict) :
  rs <> [] ->
  Forall (fun r => map fst r = record_keys) rs ->
  union_keys rs = record_keys.
Proof.
  intros Hne Hall. destruct Hall as [|r rs Hr Hall]; [done|].
  unfold union_keys. simpl. rewrite Hr.
  by apply union_keys_fold_records.
Qed.

Lemma Forall_tail_of {A : Type} (P : A -> Prop) (l : list A) :
  Forall P l -> Forall P (tail l).
Proof. intros [|x l' _ Hl']; simpl; [constructor|done]. Qed.

Lemma deque_append_all_records d r :
  all_records d -> map fst r = record_keys -> all_records (deque_append d r).
Proof.
  unfold all_records, deque_append. simpl. intros Hall Hr.
  assert (Forall (fun r => map fst r = record_keys) (items d ++ [r])) as Hgrown
    by (apply Forall_app; split; [done|by constructor]).
  destruct (_ <? _)%nat; [|done].
  by apply Forall_tail_of.
Qed.

Lemma each_company_all_records company w :
  all_records (records_deque w) ->
  all_records (records_deque (each_company company w).2).
Proof.
  intros Hall. destruct (each_company company w) as [[[]|e] w'] eqn:Hrun; simpl.
  - apply each_company_Return in Hrun as (t & p & h & _ & _ & _ & -> & _).
    by apply deque_append_all_records.
  - apply each_company_Raise in Hrun as [-> _]. done.
Qed.

Lemma companies_all_records cs w :
  all_records (records_deque w) ->
  all_records (records_deque (for_each cs each_company w).2).
Proof.
  apply (for_each_preserves
           (fun w w' => all_records (records_deque w) ->
                        all_records (records_deque w')));
    [done|tauto|apply each_company_all_records].
Qed.

Section Snapshot.

Variable str_value : json -> string.

Lemma snapshot_text_records d :
  items d <> [] -> all_records d ->
  snapshot_text str_value d =
    unlines (record_header :: map (record_line str_value) (items d)).
Proof.
  intros Hne Hall. unfold snapshot_text, csv_lines, DataFrame_records. simpl.
  rewrite union_keys_records by done.
  rewrite map_map. reflexivity.
Qed.

Lemma first_line_record_header rest :
  first_line (unlines (record_header :: rest)) = record_header.
Proof. reflexivity. Qed.

(** A round that returned left a file that starts with the labels of the
    records, [Company,Ticker,Time,Price], and has one line per item of the
    deque after it. *)
Lemma each_update_header cs w w' :
  each_update str_value cs w = (Return tt, w') ->
  all_records (records_deque w) ->
  items (records_deque w') <> [] ->
  files w' !! fp =
    Some (unlines (record_header
                     :: map (record_line str_value) (items (records_deque w')))).
Proof.
  intros Hrun Hall Hne.
  apply each_update_Return in Hrun as (w1 & Hpass & _ & Hf & Hd & _).
  pose proof (companies_all_records cs w Hall) as Hall1.
  rewrite Hpass in Hall1. simpl in Hall1.
  rewrite Hf, lookup_insert_eq, snapshot_text_records, Hd; congruence.
Qed.

End Snapshot.

(** C1. In the sample world, where every fetch succeeds and the disk
    never fails, [update_csv_stock] runs all its rounds and the file it
    leaves starts with the row [Company,Ticker,Time,Price], which is not
    the header [Company,Ticker,Time,Stock_Price] that [init_csv_file]
    writes; the rows after it are the items of the deque, one line each. *)
Theorem C1_round_header_differs_from_init_header :
  let w' := (update_csv_stock sample_str sample_world).2 in
  csv_row ["Company"; "Ticker"; "Time"; "Stock_Price"] = init_header /\
  files w' !! fp =
    Some (unlines (record_header
                     :: map (record_line sample_str) (items (records_deque w')))) /\
  (forall text, files w' !! fp = Some text ->
                first_line text = "Company,Ticker,Time,Price" /\
                first_line text <> init_header) /\
  length (items (records_deque w')) = 100.
Proof.
  assert (files (update_csv_stock sample_str sample_world).2 !! fp =
          Some (unlines (record_header
                  :: map (record_line sample_str)
                       (items (records_deque
                                 (update_csv_stock sample_str sample_world).2)))))
    as Hfile by (vm_compute; reflexivity).
  cbv zeta. split; [reflexivity|]. split; [exact Hfile|]. split.
  - intros text Htext.
    assert (text = unlines (record_header
                      :: map (record_line sample_str)
                           (items (records_deque
                                     (update_csv_stock sample_str sample_world).2))))
      as -> by congruence.
    rewrite first_line_record_header. split; [reflexivity|discriminate].
  - vm_compute. reflexivity.
Qed.

(** ** The file at start-up and after the first round *)

Section File.

Variable str_value : json -> string.

(** C6. When the file is not there at start-up, start-up writes it with
    the header row and nothing else, issues no request and leaves the
    deque empty; the rounds begin in that world.  (When that first write
    fails the run raises and no round begins.) *)
Theorem C6_missing_file_gets_header (cs : list string) (n : nat) (w : World) :
  files w !! fp = None ->
  match disk_fault w (disk_writes w) with
  | None =>
      exists w0,
        startup str_value n w = (Return tt, w0) /\
        files w0 = <[fp := init_header +:+ newline]> (files w) /\
        files w0 !! fp = Some (unlines [init_header]) /\
        requests w0 = requests w /\
        items (records_deque w0) = [] /\
        try_block str_value cs n w = for_range n (each_update str_value cs) w0
  | Some f =>
      exists w0,
        try_block str_value cs n w = (Raise (fault_exn f), w0) /\
        requests w0 = requests w /\ sleeps w0 = sleeps w
  end.
Proof.
  intros Hmissing. rewrite try_block_run.
  pose proof (startup_run str_value n w) as (Hd & Hr & Hs & _ & _ & _ & Hfile).
  rewrite Hmissing in Hfile. destruct Hfile as [_ Hfile].
  destruct (disk_fault w (disk_writes w)) as [f|].
  - destruct (startup str_value n w) as [r w0]. simpl in *. subst r.
    by exists w0.
  - destruct Hfile as [Hret Hfiles].
    destruct (startup str_value n w) as [r w0]. simpl in *. subst r.
    exists w0. rewrite Hfiles, Hd. repeat split; try done.
    apply lookup_insert_eq.
Qed.

(** C10. When the file is there at start-up, start-up does not write: the
    files are those it found.  They are still the same after the pass
    over the companies of the first round, whether the pass returned or
    raised, and a round that raised in its pass left them so.  A first
    round that returned replaced the contents of the file by the snapshot
    of the deque, whatever the file held, and touched no other file. *)
Theorem C10_existing_file_kept_until_first_write
    (cs : list string) (n : nat) (w : World) (old : string) :
  files w !! fp = Some old ->
  exists w0,
    startup str_value n w = (Return tt, w0) /\
    files w0 = files w /\ disk_writes w0 = disk_writes w /\
    files (for_each cs each_company w0).2 = files w /\
    (forall e w1, for_each cs each_company w0 = (Raise e, w1) ->
                  each_update str_value cs w0 = (Raise e, w1) /\
                  files w1 !! fp = Some old) /\
    (forall w1, each_update str_value cs w0 = (Return tt, w1) ->
                files w1 !! fp = Some (snapshot_text str_value (records_deque w1)) /\
                forall other, other <> fp -> files w1 !! other = files w !! other).
Proof.
  intros Hthere.
  pose proof (startup_run str_value n w) as (_ & _ & _ & _ & _ & _ & Hfile).
  rewrite Hthere in Hfile. destruct Hfile as (Hret & Hfiles & Hwrites).
  destruct (startup str_value n w) as [r w0]. simpl in *. subst r.
  exists w0. split; [done|]. split; [done|]. split; [done|].
  pose proof (companies_only_fetched cs w0) as (_ & Hkeep & _).
  split; [congruence|]. split.
  - intros e w1 Hpass. rewrite Hpass in Hkeep. simpl in Hkeep.
    split; [|congruence].
    unfold each_update, bind. by rewrite Hpass.
  - intros w1 Hround.
    apply each_update_Return in Hround as (w2 & _ & _ & Hf & Hd & _).
    rewrite Hf, Hd, Hfiles. split; [apply lookup_insert_eq|].
    intros other Hother. by apply lookup_insert_ne.
Qed.

(** C9. The text of a snapshot is a function of the deque alone: two
    saves of equal deques leave the same bytes in the file, whatever
    the clocks, the networks, the logs and the earlier contents of the
    file in the two worlds; and saving twice in a row leaves what saving
    once leaves. *)
Theorem C9_snapshot_depends_on_deque_only :
  (forall w1 w2,
      records_deque w1 = records_deque w2 ->
      disk_fault w1 (disk_writes w1) = None ->
      disk_fault w2 (disk_writes w2) = None ->
      (save_snapshot str_value w1).1 = Return tt /\
      (save_snapshot str_value w2).1 = Return tt /\
      files (save_snapshot str_value w1).2 !! fp =
        Some (snapshot_text str_value (records_deque w1)) /\
      files (save_snapshot str_value w1).2 !! fp =
        files (save_snapshot str_value w2).2 !! fp) /\
  (forall w,
      disk_fault w (disk_writes w) = None ->
      disk_fault w (S (disk_writes w)) = None ->
      files ((save_snapshot str_value ;; save_snapshot str_value) w).2 =
      files (save_snapshot str_value w).2).
Proof.
  split.
  - intros w1 w2 Hsame Hok1 Hok2. py_unfold. rewrite Hok1, Hok2. simpl.
    rewrite !lookup_insert_eq, Hsame. done.
  - intros w Hok1 Hok2. py_unfold. rewrite Hok1. simpl. rewrite Hok2. simpl.
    apply insert_insert_eq.
Qed.

End File.

Lemma C6_missing_file_gets_header_witness :
  exists w0,
    startup sample_str 100 sample_world = (Return tt, w0) /\
    files w0 !! fp = Some (unlines ["Company,Ticker,Time,Stock_Price"]) /\
    requests w0 = [] /\ items (records_deque w0) = [].
Proof.
  destruct (C6_missing_file_gets_header sample_str companies 100 sample_world)
    as (w0 & Hstart & _ & Hfile & Hreq & Hdeque & _).
  - vm_compute. reflexivity.
  - exists w0. split; [exact Hstart|]. split; [exact Hfile|].
    split; [exact Hreq|exact Hdeque].
Defined.

Lemma C10_existing_file_kept_until_first_write_witness :
  exists w0,
    startup sample_str 100 sample_world_with_file = (Return tt, w0) /\
    files w0 = files sample_world_with_file /\
    files (for_each companies each_company w0).2 = files sample_world_with_file.
Proof.
  destruct (C10_existing_file_kept_until_first_write sample_str companies 100
              sample_world_with_file "left over")
    as (w0 & Hstart & Hfiles & _ & Hpass & _).
  - vm_compute. reflexivity.
  - exists w0. split; [exact Hstart|]. split; [exact Hfiles|exact Hpass].
Defined.

Lemma C9_snapshot_depends_on_deque_only_witness :
  files (save_snapshot sample_str sample_world_early).2 !! fp =
  files (save_snapshot sample_str sample_world_late).2 !! fp.
Proof.
  apply (proj1 (C9_snapshot_depends_on_deque_only sample_str)
           sample_world_early sample_world_late); reflexivity.
Defined.

(** ** Exceptions and the end of the run *)

Section Guard.

Variable str_value : json -> string.

(** Where an exception of the [try] block comes from: the write of
    start-up, or a round after [k < n] rounds that returned; in that
    round, a company (after the companies before it returned) or the
    write of the snapshot.  In each case the block ends in the world the
    raising step left. *)
Lemma try_block_Raise cs n w e w1 :
  try_block str_value cs n w = (Raise e, w1) ->
  startup str_value n w = (Raise e, w1) \/
  exists w0 k wk,
    startup str_value n w = (Return tt, w0) /\ k < n /\
    for_range k (each_update str_value cs) w0 = (Return tt, wk) /\
    sleeps w1 = sleeps wk /\
    ((exists pre c post wc,
         cs = pre ++ c :: post /\
         for_each pre each_company wk = (Return tt, wc) /\
         each_company c wc = (Raise e, w1) /\
         records_deque w1 = records_deque wc) \/
     (exists wc f,
         for_each cs each_company wk = (Return tt, wc) /\
         disk_fault wk (disk_writes wk) = Some f /\ e = fault_exn f /\
         records_deque w1 = records_deque wc)).
Proof.
  rewrite try_block_run.
  destruct (startup str_value n w) as [[[]|e0] w0]; [|by left].
  intros Hrounds. right.
  apply rounds_Raise in Hrounds as (k & wk & Hk & Hpre & Hround).
  exists w0, k, wk. split; [done|]. split; [done|]. split; [done|].
  apply each_update_Raise in Hround as [Hs [Hpass|Hwrite]].
  - split; [done|]. left.
    apply for_each_Raise in Hpass as (pre & c & post & wc & -> & Hbefore & Hc).
    exists pre, c, post, wc. repeat split; try done.
    by apply each_company_Raise in Hc as [? _].
  - split; [done|]. right.
    destruct Hwrite as (wc & f & Hpass & Hfault & -> & Hd & _).
    by exists wc, f.
Qed.

Lemma try_block_logged_infos cs n w :
  logged_infos w (try_block str_value cs n w).2.
Proof.
  rewrite try_block_run.
  pose proof (startup_run str_value n w) as (_ & _ & _ & _ & _ & Hl & _).
  destruct (startup str_value n w) as [[[]|e0] w0]; simpl in *; [|done].
  eapply logged_infos_trans; [exact Hl|].
  apply rounds_preserve;
    [apply logged_infos_refl|apply logged_infos_trans|
     apply each_update_logged_infos].
Qed.

Lemma entered_log w : log (entered w) = log w ++ [INFO "Calling update_csv_stock"].
Proof. reflexivity. Qed.

Lemma update_csv_stock_for_returns cs n w :
  (update_csv_stock_for str_value cs n w).1 = Return tt.
Proof.
  rewrite update_csv_stock_for_run.
  by destruct (try_block str_value cs n (entered w)) as [[[]|e] w1].
Qed.

Lemma for_range_stops (n k : nat) (body : Py unit) w wk e w' :
  k < n ->
  for_range k body w = (Return tt, wk) ->
  body wk = (Raise e, w') ->
  for_range n body w = (Raise e, w').
Proof.
  intros Hk Hpre Hlast. unfold for_range in *.
  replace n with (k + S (n - S k)) by lia.
  rewrite seq_app. simpl.
  by apply (for_each_stops (seq 0 k) _ k (fun _ => body) w wk e w').
Qed.

(** A company whose price or day-high request fails, or gives a body
    without the field, raises that exception. *)
Lemma each_company_fetch_fails company ticker w e :
  lookup_ticker company = Return ticker ->
  quote_at w (length (requests w)) ticker "regularMarketPrice" = Raise e \/
  (exists new_price,
      quote_at w (length (requests w)) ticker "regularMarketPrice"
        = Return new_price /\
      quote_at w (S (length (requests w))) ticker "regularMarketDayHigh"
        = Raise e) ->
  exists w1, each_company company w = (Raise e, w1).
Proof.
  intros Ht Hfail. unfold each_company, bind, lift. rewrite Ht.
  pose proof (get_stock_price_run ticker w) as (Hp1 & Hr1 & _ & _ & Ho1 & _).
  destruct (get_stock_price ticker w) as [[p|e1] w1]; simpl in *.
  - destruct Hfail as [Hfail|(p' & _ & Hfail)]; [congruence|].
    pose proof (get_daily_high_run ticker w1) as (Hh1 & _).
    rewrite (quote_at_same_oracles w w1 _ _ _ Ho1), Hr1, length_app,
      Nat.add_1_r in Hh1.
    destruct (get_daily_high ticker w1) as [[h|e2] w2]; simpl in *;
      [congruence|].
    exists w2. congruence.
  - destruct Hfail as [Hfail|(p' & Hp' & _)]; [|congruence].
    exists w1. congruence.
Qed.

(** A round in which a company raises, raises with it, in the world the
    company left: nothing was appended for it, written or slept. *)
Lemma each_update_company_raises pre c post w wc e w1 :
  for_each pre each_company w = (Return tt, wc) ->
  each_company c wc = (Raise e, w1) ->
  each_update str_value (pre ++ c :: post) w = (Raise e, w1) /\
  records_deque w1 = records_deque wc /\
  files w1 = files w /\ sleeps w1 = sleeps w.
Proof.
  intros Hpre Hc.
  pose proof (for_each_stops pre post c each_company w wc e w1 Hpre Hc) as Hpass.
  pose proof (companies_only_fetched (pre ++ c :: post) w) as (_ & Hf & _ & Hs & _).
  rewrite Hpass in Hf, Hs. simpl in *.
  split; [unfold each_update, bind; by rewrite Hpass|].
  split; [by apply each_company_Raise in Hc as [? _]|done].
Qed.

(** C4. [update_csv_stock] itself never raises.  An exception raised in
    the [try] block, wherever it comes from (the write of start-up, a
    company of some round, the write of a snapshot), ends the block in the
    world the raising step left: the handler logs it, once, as the last
    record of the log, and the function returns; every other record the
    run logged is at level INFO.  Conversely a round that raises after
    [k < n] rounds ends the run in this way, and a round raises as soon as
    one of its steps does: a company that does not resolve, a fetch that
    fails or lacks its field, a write that fails.  The company that raised
    left no record on the deque, the companies after it were not
    processed, and the round neither wrote nor slept. *)
Theorem C4_single_top_level_guard (cs : list string) (n : nat) (w : World) :
  (update_csv_stock_for str_value cs n w).1 = Return tt /\
  match try_block str_value cs n (entered w) with
  | (Return _, w1) =>
      update_csv_stock_for str_value cs n w = (Return tt, w1) /\
      logged_infos w w1
  | (Raise e, w1) =>
      update_csv_stock_for str_value cs n w =
        (Return tt, (logger_error error_message e w1).2) /\
      (exists infos,
          log (update_csv_stock_for str_value cs n w).2 =
            log w ++ infos ++ [ERROR error_message e] /\
          forallb is_info infos = true) /\
      (startup str_value n (entered w) = (Raise e, w1) \/
       exists w0 k wk,
         startup str_value n (entered w) = (Return tt, w0) /\ k < n /\
         for_range k (each_update str_value cs) w0 = (Return tt, wk) /\
         sleeps w1 = sleeps wk /\
         ((exists pre c post wc,
              cs = pre ++ c :: post /\
              for_each pre each_company wk = (Return tt, wc) /\
              each_company c wc = (Raise e, w1) /\
              records_deque w1 = records_deque wc) \/
          (exists wc f,
              for_each cs each_company wk = (Return tt, wc) /\
              disk_fault wk (disk_writes wk) = Some f /\ e = fault_exn f /\
              records_deque w1 = records_deque wc)))
  end /\
  (forall w0 k wk e w1,
      startup str_value n (entered w) = (Return tt, w0) ->
      k < n ->
      for_range k (each_update str_value cs) w0 = (Return tt, wk) ->
      each_update str_value cs wk = (Raise e, w1) ->
      update_csv_stock_for str_value cs n w =
        (Return tt, (logger_error error_message e w1).2)) /\
  (forall pre c post w0 wc e,
      for_each pre each_company w0 = (Return tt, wc) ->
      lookup_ticker c = Raise e ->
      each_update str_value (pre ++ c :: post) w0 = (Raise e, wc)) /\
  (forall pre c post w0 wc ticker e,
      for_each pre each_company w0 = (Return tt, wc) ->
      lookup_ticker c = Return ticker ->
      quote_at wc (length (requests wc)) ticker "regularMarketPrice" = Raise e \/
      (exists new_price,
          quote_at wc (length (requests wc)) ticker "regularMarketPrice"
            = Return new_price /\
          quote_at wc (S (length (requests wc))) ticker "regularMarketDayHigh"
            = Raise e) ->
      exists w1,
        each_update str_value (pre ++ c :: post) w0 = (Raise e, w1) /\
        records_deque w1 = records_deque wc /\
        files w1 = files w0 /\ sleeps w1 = sleeps w0) /\
  (forall cs' w0 wc f,
      for_each cs' each_company w0 = (Return tt, wc) ->
      disk_fault w0 (disk_writes w0) = Some f ->
      exists w1,
        each_update str_value cs' w0 = (Raise (fault_exn f), w1) /\
        records_deque w1 = records_deque wc /\ sleeps w1 = sleeps w0).
Proof.
  split; [apply update_csv_stock_for_returns|].
  split; [|split; [|split; [|split]]].
  - rewrite update_csv_stock_for_run.
    pose proof (try_block_logged_infos cs n (entered w)) as (infos & Hlog & Hinfos).
    pose proof (try_block_Raise cs n (entered w)) as Horigin.
    destruct (try_block str_value cs n (entered w)) as [[[]|e] w1]; simpl in *.
    + split; [done|]. exists (INFO "Calling update_csv_stock" :: infos).
      split; [|done]. by rewrite Hlog, <- app_assoc.
    + split; [done|]. split; [|by apply Horigin].
      exists (INFO "Calling update_csv_stock" :: infos).
      split; [|done].
      rewrite Hlog, <- !app_assoc. reflexivity.
  - intros w0 k wk e w1 Hstart Hk Hpre Hround.
    rewrite update_csv_stock_for_run, try_block_run, Hstart.
    by rewrite (for_range_stops n k _ w0 wk e w1).
  - intros pre c post w0 wc e Hpre Hmiss.
    apply (each_update_company_raises pre c post w0 wc e wc); [done|].
    by apply each_company_unknown.
  - intros pre c post w0 wc ticker e Hpre Ht Hfail.
    destruct (each_company_fetch_fails c ticker wc e Ht Hfail) as [w1 Hc].
    exists w1. by apply (each_update_company_raises pre c post w0 wc e w1).
  - intros cs' w0 wc f Hpass Hfault.
    pose proof (companies_only_fetched cs' w0) as (Ho & _ & Hd & Hs & _).
    rewrite Hpass in Ho, Hd, Hs. simpl in *. destruct Ho as (_ & _ & Hdisk).
    unfold each_update, bind. rewrite Hpass. py_unfold.
    rewrite Hdisk, Hd, Hfault. eexists. split; [reflexivity|]. done.
Qed.

(** C8. [update_csv_stock] always ends.  [num_updates], which is both the
    [maxlen] of the deque and the number of rounds, is 100: when nothing
    raises the run does exactly 100 rounds (it sleeps 100 times, 60
    seconds each) and ends; when something raises, fewer than 100 rounds
    were completed, none is begun after it, and the record of the error is
    the last thing the run logs. *)
Theorem C8_run_ends_after_num_updates_rounds (w : World) :
  num_updates = 100 /\
  (update_csv_stock str_value w).1 = Return tt /\
  maxlen (records_deque (update_csv_stock str_value w).2) = num_updates /\
  match (try_block str_value companies num_updates (entered w)).1 with
  | Return _ =>
      sleeps (update_csv_stock str_value w).2 =
        sleeps w ++ replicate num_updates update_interval
  | Raise e =>
      exists k,
        k < num_updates /\
        sleeps (update_csv_stock str_value w).2 =
          sleeps w ++ replicate k update_interval /\
        last (log (update_csv_stock str_value w).2) = Some (ERROR error_message e)
  end.
Proof.
  split; [reflexivity|].
  split; [apply update_csv_stock_for_returns|].
  split; [exact (proj1 (update_csv_stock_for_deque str_value companies num_updates w))|].
  unfold update_csv_stock. rewrite update_csv_stock_for_run.
  pose proof (try_block_Raise companies num_updates (entered w)) as Horigin.
  pose proof (try_block_run str_value companies num_updates (entered w)) as Hrun.
  pose proof (startup_run str_value num_updates (entered w))
    as (_ & _ & Hs0 & _).
  destruct (try_block str_value companies num_updates (entered w))
    as [[[]|e] w1]; simpl in *.
  - destruct (startup str_value num_updates (entered w)) as [[[]|e0] w0];
      [|done]. simpl in *.
    symmetry in Hrun. apply rounds_Return in Hrun. by rewrite Hrun, Hs0.
  - destruct (Horigin e w1 eq_refl)
      as [Hstart|(w0 & k & wk & Hstart & Hk & Hpre & Hs & _)].
    + exists 0. split; [unfold num_updates; lia|].
      rewrite Hstart in Hs0. simpl in *. rewrite Hs0, app_nil_r.
      split; [done|]. apply last_snoc.
    + exists k. split; [done|].
      rewrite Hstart in Hs0. simpl in Hs0.
      apply rounds_Return in Hpre. rewrite Hs, Hpre, Hs0.
      split; [done|]. apply last_snoc.
Qed.

End Guard.

Lemma C4_single_top_level_guard_witness :
  exists wc,
    for_each ["Synopys"] each_company sample_world_in_round = (Return tt, wc) /\
    each_update sample_str ["Synopys"; "Nonexistent Corp"; "Intuit Inc."]
                sample_world_in_round
    = (Raise (KeyError (KStr "Nonexistent Corp")), wc) /\
    map (fun r => dict_get r "Company") (items (records_deque wc))
    = [Some (JStr "Synopys")] /\
    files wc = files sample_world_in_round /\ sleeps wc = [].
Proof.
  eexists. split; [vm_compute; reflexivity|]. split.
  - apply (proj1 (proj2 (proj2 (proj2
              (C4_single_top_level_guard sample_str [] 0 sample_world))))
             ["Synopys"] "Nonexistent Corp" ["Intuit Inc."]).
    + vm_compute. reflexivity.
    + vm_compute. reflexivity.
  - vm_compute. repeat split.
Defined.

(** ** Sample runs *)

(** Request number 25 is the day-high request of the third company of
    the second round: one round was completed, twelve records are on the
    deque, the file is the snapshot of the first round. *)
Example outage_in_second_round :
  let w' := (update_csv_stock sample_str (sample_world_outage 25)).2 in
  sleeps w' = [60] /\
  length (requests w') = 26 /\
  length (items (records_deque w')) = 12 /\
  last (log w') = Some (ERROR error_message (FetchError "unreachable")) /\
  files w' !! fp =
    Some (snapshot_text sample_str
            (Deque 100 (take 10 (items (records_deque w'))))).
Proof. vm_compute. repeat split. Qed.

(** The second write is the snapshot of the first round. *)
Example disk_full_at_first_snapshot :
  let w' := (update_csv_stock sample_str (sample_world_disk_full 1)).2 in
  sleeps w' = [] /\
  length (requests w') = 20 /\
  length (items (records_deque w')) = 10 /\
  last (log w') = Some (ERROR error_message (OSError "No space left on device")) /\
  files w' !! fp = Some "".
Proof. vm_compute. repeat split. Qed.

(** A response without [regularMarketPrice] is a [KeyError]. *)
Example missing_price_is_KeyError :
  subscript (JObj [("optionChain",
                    JObj [("result",
                           JArr [JObj [("quote",
                                        JObj [("regularMarketDayHigh", JInt 5)])]])])])
            (quote_path "regularMarketPrice")
  = Raise (KeyError (KStr "regularMarketPrice")).
Proof. reflexivity. Qed.

(** An empty result list is an [IndexError]; a null body is a [TypeError]. *)
Example empty_result_is_IndexError :
  subscript (JObj [("optionChain", JObj [("result", JArr [])])])
            (quote_path "regularMarketPrice") = Raise IndexError /\
  subscript JNull (quote_path "regularMarketPrice") = Raise TypeError.
Proof. split; reflexivity. Qed.

(** * Further properties of the program *)

(** ** What the fetchers accept *)

Lemma getitem_KStr_Return x k v :
  getitem x (KStr k) = Return v ->
  exists d, x = JObj d /\ dict_get d k = Some v.
Proof.
  destruct x as [| | | | |l|d]; simpl; try done.
  destruct (dict_get d k) as [v'|] eqn:Hk; [|done].
  intros [= ->]. by exists d.
Qed.

Lemma subscript_quote_path d field v :
  subscript d (quote_path field) = Return v <-> well_shaped d field v.
Proof.
  unfold quote_path, well_shaped. split.
  - cbn [subscript].
    destruct (getitem d (KStr "optionChain")) as [y0|] eqn:H0; [|done].
    destruct (getitem y0 (KStr "result")) as [y1|] eqn:H1; [|done].
    destruct (getitem y1 (KInt 0)) as [y2|] eqn:H2; [|done].
    destruct (getitem y2 (KStr "quote")) as [y3|] eqn:H3; [|done].
    destruct (getitem y3 (KStr field)) as [y4|] eqn:H4; [|done].
    intros [= ->].
    apply getitem_KStr_Return in H0 as (top & -> & Htop).
    apply getitem_KStr_Return in H1 as (chain & -> & Hchain).
    apply getitem_KStr_Return in H3 as (entry & -> & Hentry).
    apply getitem_KStr_Return in H4 as (quote & -> & Hquote).
    destruct y1 as [| | | |s|l|o]; simpl in H2; try done.
    + destruct s; simpl in H2; done.
    + destruct l as [|first rest]; simpl in H2; [done|].
      injection H2 as ->. by exists top, chain, entry, rest, quote.
  - intros (top & chain & entry & rest & quote & -> & Htop & Hchain & Hentry & Hquote).
    simpl. rewrite Htop. simpl. rewrite Hchain. simpl. rewrite Hentry.
    simpl. by rewrite Hquote.
Qed.

Lemma getitem_error_kinds x k e :
  getitem x k = Raise e ->
  e = TypeError \/ e = IndexError \/ e = KeyError k.
Proof.
  destruct x as [| | | |s|l|d], k as [k|i]; simpl;
    repeat case_match; intros [= <-]; auto.
Qed.

Lemma subscript_quote_path_errors d field e :
  subscript d (quote_path field) = Raise e -> is_shape_error field e = true.
Proof.
  unfold quote_path. cbn [subscript].
  destruct (getitem d (KStr "optionChain")) as [y0|e0] eqn:H0.
  2:{ intros [= <-]. by destruct (getitem_error_kinds _ _ _ H0) as [->|[->| ->]]. }
  destruct (getitem y0 (KStr "result")) as [y1|e1] eqn:H1.
  2:{ intros [= <-]. by destruct (getitem_error_kinds _ _ _ H1) as [->|[->| ->]]. }
  destruct (getitem y1 (KInt 0)) as [y2|e2] eqn:H2.
  2:{ intros [= <-]. by destruct (getitem_error_kinds _ _ _ H2) as [->|[->| ->]]. }
  destruct (getitem y2 (KStr "quote")) as [y3|e3] eqn:H3.
  2:{ intros [= <-]. by destruct (getitem_error_kinds _ _ _ H3) as [->|[->| ->]]. }
  destruct (getitem y3 (KStr field)) as [y4|e4] eqn:H4; [done|].
  intros [= <-].
  destruct (getitem_error_kinds _ _ _ H4) as [->|[->| ->]]; try done.
  simpl. rewrite String.eqb_refl. by rewrite !orb_true_r.
Qed.

(** X1. A fetcher returns a value exactly when its request is answered
    and the payload has the expected shape down to the field it reads:
    [get_stock_price] then returns [regularMarketPrice], [get_daily_high]
    returns [regularMarketDayHigh], of the first item of [result]. *)
Theorem fetchers_return_the_field_of_a_well_shaped_payload
    (ticker : string) (w : World) (v : json) :
  ((get_stock_price ticker w).1 = Return v <->
   exists r, fetch_reply w (length (requests w)) (options_url ticker) = Return r /\
             well_shaped (data r) "regularMarketPrice" v) /\
  ((get_daily_high ticker w).1 = Return v <->
   exists r, fetch_reply w (length (requests w)) (options_url ticker) = Return r /\
             well_shaped (data r) "regularMarketDayHigh" v).
Proof.
  pose proof (get_stock_price_run ticker w) as (-> & _).
  pose proof (get_daily_high_run ticker w) as (-> & _).
  unfold quote_at.
  destruct (fetch_reply w (length (requests w)) (options_url ticker)) as [r|e].
  - rewrite !subscript_quote_path. split; split.
    + intros Hs. by exists r.
    + by intros (r' & [= <-] & Hs).
    + intros Hs. by exists r.
    + by intros (r' & [= <-] & Hs).
  - split; split; try done; by intros (r' & ? & _).
Qed.

Lemma fetchers_return_the_field_of_a_well_shaped_payload_witness :
  (get_stock_price "INTU" sample_world).1 = Return (JInt 100) /\
  (get_daily_high "INTU" sample_world).1 = Return (JInt 500).
Proof.
  split.
  - apply (proj1 (fetchers_return_the_field_of_a_well_shaped_payload
                    "INTU" sample_world (JInt 100))).
    eexists. split; [reflexivity|].
    do 5 eexists. repeat split; reflexivity.
  - apply (proj2 (fetchers_return_the_field_of_a_well_shaped_payload
                    "INTU" sample_world (JInt 500))).
    eexists. split; [reflexivity|].
    do 5 eexists. repeat split; reflexivity.
Defined.

(** X2. When the request is answered, the only exceptions a fetcher can
    raise are those of its subscripts: [TypeError], [IndexError],
    [KeyError(0)], or [KeyError] of one of the four names on its path.
    When the request itself raises, the fetcher raises that exception. *)
Theorem fetchers_raise_shape_errors_only (ticker : string) (w : World) (e : exn) :
  (forall r,
      fetch_reply w (length (requests w)) (options_url ticker) = Return r ->
      ((get_stock_price ticker w).1 = Raise e ->
       is_shape_error "regularMarketPrice" e = true) /\
      ((get_daily_high ticker w).1 = Raise e ->
       is_shape_error "regularMarketDayHigh" e = true)) /\
  (fetch_reply w (length (requests w)) (options_url ticker) = Raise e ->
   (get_stock_price ticker w).1 = Raise e /\
   (get_daily_high ticker w).1 = Raise e).
Proof.
  pose proof (get_stock_price_run ticker w) as (-> & _).
  pose proof (get_daily_high_run ticker w) as (-> & _).
  unfold quote_at. split.
  - intros r ->. split; apply subscript_quote_path_errors.
  - by intros ->.
Qed.

Lemma fetchers_raise_shape_errors_only_witness :
  (get_stock_price "INTU" (sample_world_outage 0)).1
    = Raise (FetchError "unreachable") /\
  (get_daily_high "INTU" (sample_world_outage 0)).1
    = Raise (FetchError "unreachable").
Proof.
  apply (proj2 (fetchers_raise_shape_errors_only
                  "INTU" (sample_world_outage 0) (FetchError "unreachable"))).
  reflexivity.
Defined.

(** ** What a record keeps of the two fetches *)

(** X3. The day high is fetched and dropped: of two worlds that agree on
    the deque, on the clock's next reading and on the price the next
    request gives, a company that is processed without error leaves the
    same deque in both, whatever its day-high request answers. *)
Theorem daily_high_is_discarded (company : string) (w1 w2 w1' w2' : World) :
  records_deque w1 = records_deque w2 ->
  clock w1 (clock_reads w1) = clock w2 (clock_reads w2) ->
  (forall ticker,
      quote_at w1 (length (requests w1)) ticker "regularMarketPrice" =
      quote_at w2 (length (requests w2)) ticker "regularMarketPrice") ->
  each_company company w1 = (Return tt, w1') ->
  each_company company w2 = (Return tt, w2') ->
  records_deque w1' = records_deque w2'.
Proof.
  intros Hdeque Hclock Hprice Hrun1 Hrun2.
  apply each_company_Return in Hrun1 as (t1 & p1 & h1 & Ht1 & Hp1 & _ & -> & _).
  apply each_company_Return in Hrun2 as (t2 & p2 & h2 & Ht2 & Hp2 & _ & -> & _).
  assert (t1 = t2) as -> by congruence.
  rewrite Hprice in Hp1. assert (p1 = p2) as -> by congruence.
  by rewrite Hdeque, Hclock.
Qed.

Lemma daily_high_is_discarded_witness :
  records_deque (each_company "Synopys" sample_world_in_round).2 =
  records_deque (each_company "Synopys" sample_world_other_high).2.
Proof.
  apply (daily_high_is_discarded "Synopys"
           sample_world_in_round sample_world_other_high).
  - reflexivity.
  - reflexivity.
  - intros ticker. reflexivity.
  - vm_compute. reflexivity.
  - vm_compute. reflexivity.
Defined.

(** ** The deque and the file over the rounds *)

Section History.

Variable str_value : json -> string.


(** Each round that returns adds one record per company, up to [maxlen]. *)
Lemma each_update_deque_length cs w w' :
  each_update str_value cs w = (Return tt, w') ->
  within_maxlen (records_deque w) ->
  length (items (records_deque w')) =
    maxlen (records_deque w) `min` (length (items (records_deque w)) + length cs).
Proof.
  intros Hrun Hin.
  apply each_update_Return in Hrun as (w1 & Hpass & _ & _ & -> & _).
  apply companies_Return in Hpass as (news & Hlen & _ & -> & _).
  rewrite fold_append_items, keep_last_length, length_app, Hlen by done.
  reflexivity.
Qed.

Lemma rounds_deque_length cs k w w' :
  for_range k (each_update str_value cs) w = (Return tt, w') ->
  within_maxlen (records_deque w) ->
  within_maxlen (records_deque w') /\
  maxlen (records_deque w') = maxlen (records_deque w) /\
  length (items (records_deque w')) =
    maxlen (records_deque w) `min` (length (items (records_deque w)) + k * length cs).
Proof.
  revert w'. induction k as [|k IH]; intros w' Hrun Hin.
  - injection Hrun as <-. split; [done|]. split; [done|].
    unfold within_maxlen in Hin. simpl. lia.
  - rewrite for_range_S in Hrun.
    destruct (for_range k _ w) as [[[]|e] w1]; [|done].
    destruct (IH w1 eq_refl Hin) as (Hin1 & Hm1 & Hlen1).
    pose proof (each_update_within str_value cs w1 Hin1) as Hin'.
    pose proof (each_update_maxlen str_value cs w1) as Hm'.
    rewrite Hrun in Hin', Hm'. simpl in Hin', Hm'.
    split; [done|]. split; [congruence|].
    rewrite (each_update_deque_length cs w1 w') by done.
    rewrite Hm1, Hlen1. simpl. lia.
Qed.


(** X11. A pass that returned appended one record per company, and the
    record of the [i]-th company carries its name, the ticker the
    directory gives for it, the [i]-th reading of the clock in the pass
    and the price that the company's first request (request [2 * i] of
    the pass) gave; when the deque had room for them, they are its last
    items. *)
Theorem records_carry_ticker_time_and_price (cs : list string) (w w' : World) :
  for_each cs each_company w = (Return tt, w') ->
  exists news,
    length news = length cs /\
    (forall i company, cs !! i = Some company ->
       exists ticker new_price,
         lookup_ticker company = Return ticker /\
         quote_at w (length (requests w) + 2 * i) ticker "regularMarketPrice"
           = Return new_price /\
         news !! i = Some (new_record company ticker
                             (clock w (clock_reads w + i)) new_price)) /\
    records_deque w' = fold_left deque_append news (records_deque w) /\
    (length (items (records_deque w)) + length cs <= maxlen (records_deque w) ->
     items (records_deque w') = items (records_deque w) ++ news).
Proof.
  intros Hrun.
  destruct (companies_Return cs w w' Hrun) as (news & Hlen & Hith & Hd & _).
  exists news. split; [done|]. split; [exact Hith|]. split; [done|].
  intros Hroom. rewrite Hd, fold_append_items by (unfold within_maxlen; lia).
  apply keep_last_all. rewrite length_app. lia.
Qed.


(** After a round that returned, the file is the snapshot of the deque. *)
Lemma rounds_file_is_snapshot cs k w0 wk :
  for_range (S k) (each_update str_value cs) w0 = (Return tt, wk) ->
  files wk !! fp = Some (snapshot_text str_value (records_deque wk)).
Proof.
  rewrite for_range_S.
  destruct (for_range k _ w0) as [[[]|e] w1]; [|done].
  intros Hround.
  apply each_update_Return in Hround as (w2 & _ & _ & Hf & Hdk & _).
  rewrite Hf, Hdk. apply lookup_insert_eq.
Qed.


(** X12. The file survives a round that fails: when, after at least one
    round that returned, a company raises, the round raises with it
    without writing or sleeping, and the file is still the snapshot the
    last completed round wrote, while the deque has meanwhile taken the
    records of the companies before the one that raised. *)
Theorem file_survives_a_failed_round
    (cs : list string) (k : nat) (w0 wk w1 : World) (e : exn) :
  for_range (S k) (each_update str_value cs) w0 = (Return tt, wk) ->
  for_each cs each_company wk = (Raise e, w1) ->
  each_update str_value cs wk = (Raise e, w1) /\
  files w1 = files wk /\
  files w1 !! fp = Some (snapshot_text str_value (records_deque wk)) /\
  sleeps w1 = sleeps wk /\
  exists pre c post news,
    cs = pre ++ c :: post /\ length news = length pre /\
    records_deque w1 = fold_left deque_append news (records_deque wk).
Proof.
  intros Hrounds Hpass.
  pose proof (rounds_file_is_snapshot cs k w0 wk Hrounds) as Hfile.
  pose proof (companies_only_fetched cs wk) as (_ & Hf & _ & Hs & _).
  rewrite Hpass in Hf, Hs. simpl in Hf, Hs.
  split; [unfold each_update, bind; by rewrite Hpass|].
  split; [done|]. split; [by rewrite Hf|]. split; [done|].
  apply for_each_Raise in Hpass as (pre & c & post & wc & -> & Hpre & Hc).
  apply companies_Return in Hpre as (news & Hlen & _ & Hd & _).
  apply each_company_Raise in Hc as [Hdc _].
  exists pre, c, post, news. split; [done|]. split; [done|]. congruence.
Qed.

End History.



Lemma records_carry_ticker_time_and_price_witness :
  exists news,
    length news = 2 /\
    records_deque (for_each ["Intuit Inc."; "Synopys"] each_company
                     sample_world_in_round).2
    = fold_left deque_append news (records_deque sample_world_in_round).
Proof.
  destruct (for_each ["Intuit Inc."; "Synopys"] each_company sample_world_in_round)
    as [r w'] eqn:Hrun.
  assert (r = Return tt) as -> by (vm_compute in Hrun; congruence).
  destruct (records_carry_ticker_time_and_price _ _ _ Hrun)
    as (news & Hlen & _ & Hdeque & _).
  exists news. split; [exact Hlen|exact Hdeque].
Defined.

Lemma file_survives_a_failed_round_witness :
  files (for_each ["Intuit Inc."; "Synopys"] each_company
           (for_range 1 (each_update sample_str ["Intuit Inc."; "Synopys"])
              (startup sample_str 100 (sample_world_outage 6)).2).2).2 !! fp
  = Some (snapshot_text sample_str
            (records_deque
               (for_range 1 (each_update sample_str ["Intuit Inc."; "Synopys"])
                  (startup sample_str 100 (sample_world_outage 6)).2).2)).
Proof.
  destruct (file_survives_a_failed_round sample_str ["Intuit Inc."; "Synopys"] 0
              (startup sample_str 100 (sample_world_outage 6)).2
              (for_range 1 (each_update sample_str ["Intuit Inc."; "Synopys"])
                 (startup sample_str 100 (sample_world_outage 6)).2).2
              (for_each ["Intuit Inc."; "Synopys"] each_company
                 (for_range 1 (each_update sample_str ["Intuit Inc."; "Synopys"])
                    (startup sample_str 100 (sample_world_outage 6)).2).2).2
              (FetchError "unreachable"))
    as (_ & _ & Hfile & _).
  - vm_compute. reflexivity.
  - vm_compute. reflexivity.
  - exact Hfile.
Defined.

(** ** A run in a healthy world *)

Lemma healthy_same_oracles w w' : same_oracles w w' -> healthy w -> healthy w'.
Proof.
  intros (Hf & _ & Hd) [Hnet Hdisk]. split.
  - intros n url. rewrite Hf. apply Hnet.
  - intros k. rewrite Hd. apply Hdisk.
Qed.

Lemma healthy_fetches_succeed w n cs :
  healthy w ->
  Forall (fun company => exists ticker, lookup_ticker company = Return ticker) cs ->
  fetches_succeed w n cs = true.
Proof.
  intros [Hnet _] Hcs. revert n.
  induction Hcs as [|c cs [t Ht] _ IH]; intros n; simpl; [done|].
  rewrite Ht. unfold quote_at.
  destruct (Hnet n (options_url t)) as (r & p & h & -> & -> & _).
  destruct (Hnet (S n) (options_url t)) as (r' & p' & h' & -> & _ & ->).
  apply IH.
Qed.

Lemma companies_resolve :
  Forall (fun company => exists ticker, lookup_ticker company = Return ticker)
         companies.
Proof. repeat constructor; eexists; vm_compute; reflexivity. Qed.

Section Healthy.

Variable str_value : json -> string.

Lemma each_update_succeeds cs w w1 :
  for_each cs each_company w = (Return tt, w1) ->
  disk_fault w (disk_writes w) = None ->
  exists w', each_update str_value cs w = (Return tt, w').
Proof.
  intros Hpass Hdisk.
  pose proof (companies_only_fetched cs w) as (Ho & _ & Hd & _).
  rewrite Hpass in Ho, Hd. simpl in *. destruct Ho as (_ & _ & Hfault).
  unfold each_update, bind. rewrite Hpass. py_unfold.
  rewrite Hfault, Hd, Hdisk. by eexists.
Qed.

Lemma each_update_requests_length cs w w' :
  each_update str_value cs w = (Return tt, w') ->
  length (requests w') = length (requests w) + 2 * length cs.
Proof.
  intros Hrun.
  apply each_update_Return in Hrun as (w1 & Hpass & _ & _ & _ & -> & _).
  pose proof (requests_of_resolved cs w w1 Hpass) as Hres.
  apply companies_Return in Hpass as (news & _ & _ & _ & -> & _).
  rewrite length_app. f_equal.
  rewrite (concat_length_uniform 2), length_map; [done|].
  apply Forall_fmap. eapply Forall_impl; [exact Hres|].
  intros c (t & _ & Heq). simpl. by rewrite Heq.
Qed.

Lemma healthy_rounds cs k w :
  healthy w ->
  Forall (fun company => exists ticker, lookup_ticker company = Return ticker) cs ->
  exists w',
    for_range k (each_update str_value cs) w = (Return tt, w') /\
    same_oracles w w' /\
    length (requests w') = length (requests w) + k * (2 * length cs).
Proof.
  intros Hw Hcs. induction k as [|k (w1 & Hrun & Ho & Hreq)].
  - exists w. split; [done|]. split; [apply same_oracles_refl|simpl; lia].
  - rewrite for_range_S, Hrun.
    pose proof (healthy_same_oracles w w1 Ho Hw) as Hw1.
    destruct (companies_succeed cs w1) as [w2 Hpass];
      [by apply healthy_fetches_succeed|].
    destruct (each_update_succeeds cs w1 w2 Hpass) as [w' Hround];
      [apply Hw1|].
    exists w'. split; [done|].
    pose proof (each_update_same_oracles str_value cs w1) as Ho'.
    rewrite Hround in Ho'. simpl in Ho'.
    split; [by eapply same_oracles_trans|].
    rewrite (each_update_requests_length cs w1 w') by done. lia.
Qed.

(** X6. In a world where every request is answered with a payload that
    has both fields and the disk never fails, [update_csv_stock] returns
    having logged no error: it did all 100 rounds, issued 2000 requests,
    slept 100 times and left 100 records on the deque. *)
Theorem healthy_run_completes (w : World) :
  healthy w ->
  exists w',
    update_csv_stock str_value w = (Return tt, w') /\
    try_block str_value companies num_updates (entered w) = (Return tt, w') /\
    logged_infos w w' /\
    length (requests w') = length (requests w) + 2000 /\
    sleeps w' = sleeps w ++ replicate 100 update_interval /\
    length (items (records_deque w')) = 100.
Proof.
  intros Hw.
  assert (healthy (entered w)) as Hentered by exact Hw.
  pose proof (startup_run str_value num_updates (entered w))
    as (Hd & Hr & Hs & _ & Ho & Hl & Hfile).
  assert ((startup str_value num_updates (entered w)).1 = Return tt) as Hret.
  { destruct (files (entered w) !! fp); [by destruct Hfile|].
    destruct Hfile as [_ Hfile]. destruct Hw as [_ Hdisk].
    change (disk_fault (entered w)) with (disk_fault w) in Hfile.
    rewrite Hdisk in Hfile. by destruct Hfile. }
  destruct (startup str_value num_updates (entered w)) as [r w0] eqn:Hstart.
  simpl in *. subst r.
  destruct (healthy_rounds companies num_updates w0) as (w' & Hrun & _ & Hreq);
    [by eapply healthy_same_oracles|apply companies_resolve|].
  assert (try_block str_value companies num_updates (entered w) = (Return tt, w'))
    as Htry by (by rewrite try_block_run, Hstart).
  exists w'. split.
  { unfold update_csv_stock. by rewrite update_csv_stock_for_run, Htry. }
  split; [done|]. split.
  { pose proof (try_block_logged_infos str_value companies num_updates (entered w))
      as (infos & Hlog & Hinfos).
    rewrite Htry in Hlog. simpl in Hlog.
    exists (INFO "Calling update_csv_stock" :: infos).
    split; [by rewrite Hlog, <- app_assoc|done]. }
  split; [rewrite Hreq, Hr; reflexivity|]. split.
  - apply rounds_Return in Hrun. by rewrite Hrun, Hs.
  - apply rounds_deque_length in Hrun as (_ & _ & ->);
      rewrite Hd; [reflexivity|apply deque_new_within].
Qed.

End Healthy.

Lemma healthy_run_completes_witness :
  exists w',
    update_csv_stock sample_str sample_world = (Return tt, w') /\
    length (requests w') = 2000 /\
    length (items (records_deque w')) = 100.
Proof.
  destruct (healthy_run_completes sample_str sample_world)
    as (w' & Hrun & _ & _ & Hreq & _ & Hlen).
  - split; [|reflexivity]. intros n url.
    exists (MkResult (sample_quote (100 + Z.of_nat n) 500)),
           (JInt (100 + Z.of_nat n)), (JInt 500).
    repeat split; reflexivity.
  - exists w'. split; [exact Hrun|]. split; [exact Hreq|exact Hlen].
Defined.

(** ** What a run costs and what it leaves alone *)



Section Cost.

Variable str_value : json -> string.








End Cost.


(** ** The order of the records *)

Lemma deque_append_chronological (w : World) (d : deque dict) (reads : nat)
    (company ticker : string) (new_price : json) :
  length (items d) <= reads ->
  map (fun r => dict_get r "Time") (items d) =
    map (fun i => Some (JStr (clock w i)))
        (seq (reads - length (items d)) (length (items d))) ->
  let d' := deque_append d (new_record company ticker (clock w reads) new_price) in
  length (items d') <= S reads /\
  map (fun r => dict_get r "Time") (items d') =
    map (fun i => Some (JStr (clock w i)))
        (seq (S reads - length (items d')) (length (items d'))).
Proof.
  intros Hle Htimes. unfold deque_append. simpl.
  rewrite length_app. simpl.
  destruct (_ <? _)%nat.
  - destruct (items d) as [|x l] eqn:Hitems; simpl in *; [split; [lia|done]|].
    rewrite length_app. simpl. split; [lia|].
    rewrite map_app. simpl.
    replace (length l + 1) with (S (length l)) by lia.
    rewrite seq_S, map_app. simpl.
    replace (reads - S (length l)) with (reads - length l - 1) in Htimes by lia.
    injection Htimes as _ Htimes.
    replace (S (reads - length l - 1)) with (reads - length l) in Htimes by lia.
    rewrite Htimes.
    by replace (reads - length l + length l) with reads by lia.
  - rewrite length_app. simpl. split; [lia|].
    rewrite map_app. simpl.
    replace (length (items d) + 1) with (S (length (items d))) by lia.
    rewrite seq_S, map_app. simpl.
    rewrite Htimes.
    by replace (reads - length (items d) + length (items d)) with reads by lia.
Qed.

Lemma each_company_chronological company w :
  chronological w -> chronological (each_company company w).2.
Proof.
  intros [Hle Htimes].
  pose proof (each_company_only_fetched company w) as ((_ & Hclock & _) & _).
  destruct (each_company company w) as [[[]|e] w'] eqn:Hrun; simpl in *.
  - apply each_company_Return in Hrun as (t & p & h & _ & _ & _ & Hd & _ & Hk).
    unfold chronological. rewrite Hd, Hk, Hclock.
    by apply deque_append_chronological.
  - apply each_company_Raise in Hrun as [Hd Hk].
    unfold chronological. by rewrite Hd, Hk, Hclock.
Qed.

Section Order.

Variable str_value : json -> string.

Lemma each_update_chronological cs w :
  chronological w -> chronological (each_update str_value cs w).2.
Proof.
  intros Hw. unfold each_update, bind.
  pose proof (for_each_preserves (fun w w' => chronological w -> chronological w')
                cs each_company) as Hpass.
  specialize (Hpass (fun _ H => H)).
  assert (chronological (for_each cs each_company w).2) as Hw1.
  { apply Hpass; [tauto|apply each_company_chronological|done]. }
  destruct (for_each cs each_company w) as [[[]|e1] w1]; simpl in *; [|done].
  py_unfold. by destruct (disk_fault w1 (disk_writes w1)).
Qed.

(** X9. At the end of a run, however it ended, the deque is in the order
    of the clock: its records are those of the latest readings of the
    clock, one record per reading, oldest first and none missing between
    the oldest and the newest. *)
Theorem deque_is_chronological (cs : list string) (n : nat) (w : World) :
  chronological (update_csv_stock_for str_value cs n w).2 /\
  clock (update_csv_stock_for str_value cs n w).2 = clock w.
Proof.
  rewrite update_csv_stock_for_run, try_block_run.
  pose proof (startup_run str_value n (entered w))
    as (Hd & _ & _ & _ & (_ & Hc0 & _) & _).
  assert (chronological (startup str_value n (entered w)).2) as H0.
  { unfold chronological. rewrite Hd. simpl. split; [lia|done]. }
  destruct (startup str_value n (entered w)) as [[[]|e0] w0]; simpl in *;
    [|done].
  pose proof (rounds_preserve str_value
                (fun w w' => chronological w -> chronological w') cs n) as Hkeep.
  specialize (Hkeep (fun _ H => H)).
  assert (chronological (for_range n (each_update str_value cs) w0).2) as Hend.
  { apply Hkeep; [tauto|apply each_update_chronological|done]. }
  pose proof (rounds_preserve str_value same_oracles cs n same_oracles_refl
                same_oracles_trans (each_update_same_oracles str_value cs) w0)
    as (_ & Hc & _).
  destruct (for_range n _ w0) as [[[]|e] w1]; simpl in *;
    (split; [done|congruence]).
Qed.

(** ** Where an error of the program comes from *)

Lemma each_company_Raise_origin company w e w' :
  each_company company w = (Raise e, w') ->
  lookup_ticker company = Raise e \/
  exists ticker i field,
    lookup_ticker company = Return ticker /\
    (field = "regularMarketPrice" \/ field = "regularMarketDayHigh") /\
    quote_at w i ticker field = Raise e.
Proof.
  unfold each_company, bind, lift.
  destruct (lookup_ticker company) as [t|e0]; [|intros [= -> _]; by left].
  pose proof (get_stock_price_run t w) as (Hp & Hr1 & _ & _ & Ho1 & _).
  destruct (get_stock_price t w) as [[p|e1] w1]; simpl in *.
  - pose proof (get_daily_high_run t w1) as (Hh & _).
    rewrite (quote_at_same_oracles w w1 _ _ _ Ho1) in Hh.
    destruct (get_daily_high t w1) as [[h|e2] w2]; simpl in *; [done|].
    intros [= -> _]. right.
    exists t, (length (requests w1)), "regularMarketDayHigh". auto.
  - intros [= -> _]. right.
    exists t, (length (requests w)), "regularMarketPrice". auto.
Qed.

Lemma quote_at_Raise_origin w i ticker field e :
  quote_at w i ticker field = Raise e ->
  (exists url, fetch_reply w i url = Raise e) \/
  (exists url r, fetch_reply w i url = Return r /\ is_shape_error field e = true).
Proof.
  unfold quote_at.
  destruct (fetch_reply w i (options_url ticker)) as [r|e0] eqn:Hreply.
  - intros Hshape. right. exists (options_url ticker), r.
    split; [done|]. by eapply subscript_quote_path_errors.
  - intros [= ->]. left. by exists (options_url ticker).
Qed.

(** X10. Every tracked name is a key of the directory, so the resolver
    never raises in [update_csv_stock]: the exception a run ends on is
    always the disk's, or the one a request raised, or one of the shape
    errors of a payload. *)
Theorem program_errors_come_from_disk_or_network (w : World) (e : exn) (w1 : World) :
  try_block str_value companies num_updates w = (Raise e, w1) ->
  (exists k f, disk_fault w k = Some f /\ e = fault_exn f) \/
  (exists i url, fetch_reply w i url = Raise e) \/
  (exists i url r field,
      fetch_reply w i url = Return r /\
      (field = "regularMarketPrice" \/ field = "regularMarketDayHigh") /\
      is_shape_error field e = true).
Proof.
  intros Hrun.
  pose proof (startup_run str_value num_updates w)
    as (_ & _ & _ & _ & Ho0 & _ & Hfile).
  apply try_block_Raise in Hrun
    as [Hstart|(w0 & k & wk & Hstart & Hk & Hpre & _ & Horigin)].
  - rewrite Hstart in Hfile. simpl in Hfile. left.
    destruct (files w !! fp); [by destruct Hfile|].
    destruct Hfile as [_ Hfile].
    destruct (disk_fault w (disk_writes w)) as [f|] eqn:Hfault;
      [|by destruct Hfile].
    exists (disk_writes w), f. split; [done|congruence].
  - rewrite Hstart in Ho0. simpl in Ho0.
    pose proof (rounds_preserve str_value same_oracles companies k
                  same_oracles_refl same_oracles_trans
                  (each_update_same_oracles str_value companies) w0) as Hok.
    rewrite Hpre in Hok. simpl in Hok.
    pose proof (same_oracles_trans _ _ _ Ho0 Hok) as Hwk.
    destruct Horigin as [(pre & c & post & wc & Hcs & Hbefore & Hc & _)
                        |(wc & f & _ & Hfault & -> & _)].
    + pose proof (companies_only_fetched pre wk) as (Hoc & _).
      rewrite Hbefore in Hoc. simpl in Hoc.
      pose proof (same_oracles_trans _ _ _ Hwk Hoc) as Hwc.
      apply each_company_Raise_origin in Hc
        as [Hmiss|(t & i & field & Ht & Hfield & Hq)].
      * exfalso. pose proof companies_resolve as Hres.
        rewrite Hcs in Hres. apply Forall_app in Hres as [_ Hres].
        apply Forall_cons in Hres as [[t Ht] _]. congruence.
      * rewrite (quote_at_same_oracles w wc _ _ _ Hwc) in Hq.
        right.
        apply quote_at_Raise_origin in Hq as [(url & Hraise)|(url & r & Hreply & Hshape)].
        -- left. by exists i, url.
        -- right. by exists i, url, r, field.
    + left. destruct Hwk as (_ & _ & Hdisk). rewrite Hdisk in Hfault.
      by exists (disk_writes wk), f.
Qed.

End Order.

Lemma program_errors_come_from_disk_or_network_witness :
  (exists k f, disk_fault (sample_world_outage 25) k = Some f /\
               FetchError "unreachable" = fault_exn f) \/
  (exists i url, fetch_reply (sample_world_outage 25) i url
                 = Raise (FetchError "unreachable")) \/
  (exists i url r field,
      fetch_reply (sample_world_outage 25) i url = Return r /\
      (field = "regularMarketPrice" \/ field = "regularMarketDayHigh") /\
      is_shape_error field (FetchError "unreachable") = true).
Proof.
  eapply (program_errors_come_from_disk_or_network sample_str
            (sample_world_outage 25) (FetchError "unreachable")).
  vm_compute. reflexivity.
Defined.
